(** * libsuspend: a shallow embedding of the autosuspend engine

    Models [libsuspend/autosuspend.c], [libsuspend/autosuspend_earlysuspend.c]
    and [libsuspend/autosuspend_wakeup_count.c].  Kernel files, properties and
    system calls are inputs (oracles) of the embedded functions; their visible
    effects (writes to sysfs nodes, to the uinput device, callbacks and
    semaphore operations) are outputs, in the order the C code performs them. *)

From Stdlib Require Import List String Ascii ZArith Bool Lia.
Import ListNotations.


(* ------------------------------------------------------------------ *)
(** ** Input events written to the uinput device *)

Module Input.

Definition EV_SYN : Z := 0%Z.
Definition EV_KEY : Z := 1%Z.
Definition SYN_REPORT : Z := 0%Z.
Definition KEY_POWER : Z := 116%Z.
Definition KEY_WAKEUP : Z := 143%Z.

(** [struct input_event] without its (zeroed) timestamp. *)
Record input_event := mk_iev { iev_type : Z; iev_code : Z; iev_value : Z }.

(** What happens on the uinput file descriptor: a [write] of one event,
    or a [sleep(secs)] of the writing thread between two writes. *)
Inductive uaction :=
| UWrite (ev : input_event)
| USleep (secs : nat).

(** [emit_key]: one [EV_KEY] event, then one [EV_SYN]/[SYN_REPORT] with
    value 0. *)
Definition emit_key (key_code val : Z) : list uaction :=
  [UWrite (mk_iev EV_KEY key_code val); UWrite (mk_iev EV_SYN SYN_REPORT 0%Z)].

Definition send_key_wakeup : list uaction :=
  emit_key KEY_WAKEUP 1%Z ++ emit_key KEY_WAKEUP 0%Z.

Definition send_key_power (longpress : bool) : list uaction :=
  emit_key KEY_POWER 1%Z ++ (if longpress then [USleep 2] else []) ++
  emit_key KEY_POWER 0%Z.

(** The events written, sleeps left out. *)
Definition written (l : list uaction) : list input_event :=
  flat_map (fun a => match a with UWrite e => [e] | USleep _ => [] end) l.

(** An event stream made of key edges: each [EV_KEY] event immediately
    followed by one [SYN_REPORT] with value 0. *)
Fixpoint key_edges (l : list input_event) : Prop :=
  match l with
  | [] => True
  | k :: s :: rest =>
      iev_type k = EV_KEY /\ s = mk_iev EV_SYN SYN_REPORT 0%Z /\ key_edges rest
  | [_] => False
  end.

End Input.

(* ------------------------------------------------------------------ *)
(** ** Sleep state resolution ([get_sleep_state]) *)

Module SleepState.

Definition default_sleep_state : string := "mem".
Definition fallback_sleep_state : string := "freeze".

(** [strstr(hay, needle) != NULL]. *)
Fixpoint strstr (hay needle : string) : bool :=
  if String.prefix needle hay then true
  else match hay with
       | EmptyString => false
       | String _ t => strstr t needle
       end.

Definition NUL : ascii := "000"%char.

Definition BUF_LEN : nat := 64.

Fixpoint nuls (n : nat) : string :=
  match n with O => EmptyString | S k => String NUL (nuls k) end.

(** What [/sys/power/state] and the reading stack frame look like:
    the text the kernel serves, whether [read] succeeds (on failure it
    returns -1 and writes nothing), the bytes [char buf[64]] holds before
    the read (it is not initialised: whatever an earlier frame left; cut
    or padded with NULs to 64 bytes), and the bytes that follow [buf] in
    memory up to the first NUL, which [strstr] also scans when none of
    the 64 bytes is a NUL. *)
Record power_state_node := mk_node {
  node_content : string;
  node_read_ok : bool;
  stack_bytes : string;
  past_bytes : string
}.

(** What the process sees when it resolves the sleep state: the
    [sleep.state] property (empty when unset) and [/sys/power/state]
    ([None] when it cannot be opened). *)
Record sleep_env := mk_sleep_env {
  prop_sleep_state : string;
  sys_power_state : option power_state_node
}.

(** The 64 bytes of [buf] before the read. *)
Definition buf64 (s : string) : string :=
  substring 0 BUF_LEN (String.append s (nuls BUF_LEN)).

(** [buf] after [read(fd, buf, 64)]: the first [min 64 len] bytes of the
    file over the old content; untouched when the read fails.  Nothing
    terminates it. *)
Definition read_buf (nd : power_state_node) : string :=
  let old := buf64 (stack_bytes nd) in
  if node_read_ok nd then
    let n := Nat.min BUF_LEN (String.length (node_content nd)) in
    String.append (substring 0 n (node_content nd)) (substring n (BUF_LEN - n) old)
  else old.

(** The C string starting at a pointer: the bytes up to the first NUL. *)
Fixpoint c_string (s : string) : string :=
  match s with
  | EmptyString => EmptyString
  | String c t => if Ascii.eqb c NUL then EmptyString else String c (c_string t)
  end.

(** [sleep_state_available]: [strstr(buf, state)] on the unterminated
    buffer, so it scans [buf] and whatever follows it up to a NUL. *)
Definition sleep_state_available (node : option power_state_node) (state : string)
  : bool :=
  match node with
  | None => false
  | Some nd => strstr (c_string (String.append (read_buf nd) (past_bytes nd))) state
  end.

(** [get_sleep_state]: the static buffer [sleep_state] is the cache; the
    result is the returned string and the new cache. *)
Definition get_sleep_state (env : sleep_env) (sleep_state : string)
  : string * string :=
  match sleep_state with
  | EmptyString =>
      let v :=
        if (0 <? String.length (prop_sleep_state env))%nat
        then prop_sleep_state env
        else if sleep_state_available (sys_power_state env) default_sleep_state
        then default_sleep_state
        else fallback_sleep_state in
      (v, v)
  | _ => (sleep_state, sleep_state)
  end.

(** For statements: [s] holds no NUL byte. *)
Fixpoint no_nul (s : string) : bool :=
  match s with
  | EmptyString => true
  | String c t => negb (Ascii.eqb c NUL) && no_nul t
  end.

(** For statements: the kernel lists [state] within the first 64 bytes
    of its text, and those bytes hold no NUL (sysfs text holds none). *)
Definition listed (nd : power_state_node) (state : string) : Prop :=
  no_nul (substring 0 BUF_LEN (node_content nd)) = true /\
  strstr (substring 0 BUF_LEN (node_content nd)) state = true.

(** Successive calls, each under the environment of its own time. *)
Fixpoint run_get_sleep_state (envs : list sleep_env) (cache : string)
  : list string :=
  match envs with
  | [] => []
  | e :: es =>
      let '(r, cache') := get_sleep_state e cache in
      r :: run_get_sleep_state es cache'
  end.

End SleepState.

(* ------------------------------------------------------------------ *)
(** ** Wakeup callback registration *)

Module Callback.

(** A callback is named by a number; [None] is the NULL pointer. *)
Definition callback := nat.

(** [set_wakeup_callback]: new slot value, and whether the duplicate
    was logged. *)
Definition set_wakeup_callback (func : option callback)
  (wakeup_func : option callback) : option callback * bool :=
  match wakeup_func with
  | Some _ => (wakeup_func, true)
  | None => (func, false)
  end.

Definition register_all (funcs : list (option callback))
  (wakeup_func : option callback) : option callback :=
  fold_left (fun st f => fst (set_wakeup_callback f st)) funcs wakeup_func.

End Callback.

(* ------------------------------------------------------------------ *)
(** ** One iteration of [suspend_thread_func] *)

Module SuspendLoop.
Import Input.

Inductive effect :=
| EUsleep                       (* usleep(100000) *)
| EReadCount                    (* read of /sys/power/wakeup_count *)
| ESemWait                      (* sem_wait(&suspend_lockout) *)
| EWriteCount (tok : string)    (* commit: write the token back *)
| EWriteState (state : string)  (* write of the sleep state *)
| EUinput (a : uaction)         (* synthetic key on the uinput device *)
| ECallback (f : Callback.callback) (success : bool)
| ESemPost.                     (* sem_post(&suspend_lockout) *)

(** [rd]: the read of the counter ([None] on error); [wait_ok],
    [commit_ok], [state_ok]: whether [sem_wait], the commit write and the
    sleep-state write succeed; [sleep_state]: [get_sleep_state()];
    [wakeup_func]: the registered callback. *)
Definition suspend_cycle (rd : option string) (wait_ok commit_ok state_ok : bool)
  (sleep_state : string) (wakeup_func : option Callback.callback) : list effect :=
  [EUsleep; EReadCount] ++
  match rd with
  | None => []
  | Some EmptyString => []
  | Some tok =>
      ESemWait ::
      if negb wait_ok then []
      else
        EWriteCount tok ::
        (if negb commit_ok then []
         else
           EWriteState sleep_state ::
           (if state_ok then map EUinput send_key_wakeup else []) ++
           match wakeup_func with
           | Some f => [ECallback f state_ok]
           | None => []
           end) ++ [ESemPost]
  end.

End SuspendLoop.

(* ------------------------------------------------------------------ *)
(** ** The power-button monitor ([openfds], [powerbtnd_thread_func]) *)

Module PowerBtn.
Import Input.

Definition MAX_POWERBTNS : nat := 3.

(** An entry of [/dev/input]: its name, whether [open] succeeds on it and
    the name [EVIOCGNAME] reports ([None] when the ioctl fails). *)
Record dirent := mk_dirent {
  d_name : string;
  open_ok : bool;
  dev_name : option string
}.

Inductive fdaction :=
| FOpen (n : string)
| FOpenFail (n : string)
| FClose (n : string).

Definition is_event_node (n : string) : bool :=
  match n with
  | String c _ => Ascii.eqb c "e"%char
  | EmptyString => false
  end.

Definition reported_name (de : dirent) : string :=
  match dev_name de with Some n => n | None => "" end.

(** The [while] loop of [openfds]: the matched entries (in [pfds] order)
    and the open/close operations performed. *)
Fixpoint openfds_loop (cnt : nat) (des : list dirent)
  : list dirent * list fdaction :=
  if (cnt <? MAX_POWERBTNS)%nat then
    match des with
    | [] => ([], [])
    | de :: rest =>
        if negb (is_event_node (d_name de)) then openfds_loop cnt rest
        else if negb (open_ok de) then
          let '(k, a) := openfds_loop cnt rest in (k, FOpenFail (d_name de) :: a)
        else if negb (String.eqb (reported_name de) "Power Button") then
          let '(k, a) := openfds_loop cnt rest in
          (k, FOpen (d_name de) :: FClose (d_name de) :: a)
        else
          let '(k, a) := openfds_loop (S cnt) rest in
          (de :: k, FOpen (d_name de) :: a)
    end
  else ([], []).

(** [openfds]: [dir] is [None] when [opendir] fails. *)
Definition openfds (dir : option (list dirent)) : list dirent * list fdaction :=
  match dir with
  | None => ([], [])
  | Some des => openfds_loop 0 des
  end.

(** What one [poll] call returns: an error, a timeout, or, for each ready
    descriptor in order, what its [read] gives the loop body: [None] for
    a short read (0 <= res < sizeof iev), which is skipped; [Some iev]
    for the event the body then processes.  A failed [read] returns -1,
    which the [size_t] [res] sees as huge, so the body processes whatever
    the uninitialised [iev] holds: that is [Some] of the stale content
    (see [PowerBtnCounts.seen]). *)
Inductive poll_result :=
| PError
| PTimeout
| PReady (reads : list (option input_event)).

Record pstate := mk_pstate { timeout : Z; longpress : bool }.

Definition init_pstate : pstate := mk_pstate (-1)%Z true.

(** The body of the [for] loop, for one event read. *)
Definition handle_event (doubleclick : bool) (st : pstate) (iev : input_event)
  : pstate * list uaction :=
  if (iev_type iev =? EV_KEY)%Z && (iev_code iev =? KEY_POWER)%Z
     && (iev_value iev =? 0)%Z then
    if negb doubleclick || (timeout st >? 0)%Z then
      (mk_pstate (-1)%Z (longpress st), send_key_power (longpress st))
    else (mk_pstate 1000%Z (longpress st), [])
  else if (iev_type iev =? EV_SYN)%Z && (iev_code iev =? SYN_REPORT)%Z
          && negb (iev_value iev =? 0)%Z then
    (mk_pstate 1000%Z false, [])
  else (st, []).

Fixpoint handle_reads (doubleclick : bool) (st : pstate)
  (reads : list (option input_event)) : pstate * list uaction :=
  match reads with
  | [] => (st, [])
  | None :: rest => handle_reads doubleclick st rest
  | Some iev :: rest =>
      let '(st1, o1) := handle_event doubleclick st iev in
      let '(st2, o2) := handle_reads doubleclick st1 rest in
      (st2, o1 ++ o2)
  end.

(** The [while] loop of [powerbtnd_thread_func] over a finite prefix of
    poll results; the output is everything written to the uinput device. *)
Fixpoint power_loop (doubleclick : bool) (cnt : nat) (polls : list poll_result)
  (st : pstate) : list uaction :=
  match cnt with
  | O => []
  | S _ =>
      match polls with
      | [] => []
      | PError :: _ => []
      | PTimeout :: rest =>
          send_key_power false ++
          power_loop doubleclick cnt rest (mk_pstate (-1)%Z true)
      | PReady reads :: rest =>
          let '(st', out) := handle_reads doubleclick st reads in
          out ++ power_loop doubleclick cnt rest st'
      end
  end.

(** [powerbtnd_thread_func]: one scan, then the loop. *)
Definition powerbtnd_thread_func (doubleclick : bool)
  (dir : option (list dirent)) (polls : list poll_result) : list uaction :=
  let cnt := List.length (fst (openfds dir)) in
  power_loop doubleclick cnt polls init_pstate.

(** Poll with timeout [-1] never times out: a well-formed poll sequence
    has [PTimeout] only while a window is pending. *)
Fixpoint polls_wf (doubleclick : bool) (polls : list poll_result) (st : pstate)
  : Prop :=
  match polls with
  | [] => True
  | PError :: _ => True
  | PTimeout :: rest =>
      (timeout st >= 0)%Z /\ polls_wf doubleclick rest (mk_pstate (-1)%Z true)
  | PReady reads :: rest =>
      polls_wf doubleclick rest (fst (handle_reads doubleclick st reads))
  end.

Definition release_ev : input_event := mk_iev EV_KEY KEY_POWER 0%Z.
Definition resume_ev : input_event := mk_iev EV_SYN SYN_REPORT 1%Z.

End PowerBtn.

(* ------------------------------------------------------------------ *)
(** ** The controller ([autosuspend_init], [autosuspend_enable],
       [autosuspend_disable]) *)

Module Controller.

(** The two [struct autosuspend_ops] a controller can point to. *)
Inductive backend := EarlySuspend | WakeupCount.

(** The environment probed by one [autosuspend_init] call. *)
Record init_env := mk_init_env {
  prop_earlysuspend : string;  (* property [sleep.earlysuspend], "" if unset *)
  es_power_state_ok : bool;    (* open_file(SYS_POWER_STATE, ...) reads it *)
  fb_sleep_exists : bool;      (* access(EARLYSUSPEND_WAIT_FOR_FB_SLEEP) *)
  fb_wake_exists : bool;       (* access(EARLYSUSPEND_WAIT_FOR_FB_WAKE) *)
  es_thread_ok : bool;         (* pthread_create of the earlysuspend thread *)
  wc_state_open_ok : bool;     (* open(SYS_POWER_STATE, O_RDWR) *)
  wc_count_open_ok : bool;     (* open(SYS_POWER_WAKEUP_COUNT, O_RDWR) *)
  wc_sem_init_ok : bool;       (* sem_init(&suspend_lockout, 0, 0) *)
  wc_thread_ok : bool          (* pthread_create of the suspend thread *)
}.

(** The static variables of the controller, with the
    [wait_for_earlysuspend] flag of the earlysuspend backend. *)
Record ctrl := mk_ctrl {
  autosuspend_ops : option backend;
  autosuspend_enabled : bool;
  autosuspend_inited : bool;
  wait_for_earlysuspend : bool
}.

Definition init_ctrl : ctrl := mk_ctrl None false false false.

(** [property_get(key, buf, default)]. *)
Definition property_get (value default : string) : string :=
  if (0 <? String.length value)%nat then value else default.

Definition first_char_is_1 (s : string) : bool :=
  match s with
  | String c _ => Ascii.eqb c "1"%char
  | EmptyString => false
  end.

(** [start_earlysuspend_thread]: the new value of [wait_for_earlysuspend]. *)
Definition start_earlysuspend_thread (env : init_env) (wait : bool) : bool :=
  if negb (fb_sleep_exists env) then wait
  else if negb (fb_wake_exists env) then wait
  else if negb (es_thread_ok env) then wait
  else true.

(** [autosuspend_earlysuspend_init]: the returned ops and the new
    [wait_for_earlysuspend]. *)
Definition autosuspend_earlysuspend_init (env : init_env) (wait : bool)
  : option backend * bool :=
  if negb (es_power_state_ok env) then (None, wait)
  else (Some EarlySuspend, start_earlysuspend_thread env wait).

Definition autosuspend_wakeup_count_init (env : init_env) : option backend :=
  if wc_state_open_ok env && wc_count_open_ok env && wc_sem_init_ok env
     && wc_thread_ok env
  then Some WakeupCount else None.

Definition set_inited (st : ctrl) : ctrl :=
  mk_ctrl (autosuspend_ops st) (autosuspend_enabled st) true
          (wait_for_earlysuspend st).

Definition autosuspend_init (env : init_env) (st : ctrl) : Z * ctrl :=
  if autosuspend_inited st then (0%Z, st)
  else
    let st1 :=
      if first_char_is_1 (property_get (prop_earlysuspend env) "1") then
        let '(o, w) := autosuspend_earlysuspend_init env (wait_for_earlysuspend st) in
        mk_ctrl o (autosuspend_enabled st) (autosuspend_inited st) w
      else st in
    match autosuspend_ops st1 with
    | Some _ => (0%Z, set_inited st1)
    | None =>
        let st2 := mk_ctrl (autosuspend_wakeup_count_init env)
                     (autosuspend_enabled st1) (autosuspend_inited st1)
                     (wait_for_earlysuspend st1) in
        match autosuspend_ops st2 with
        | Some _ => (0%Z, set_inited st2)
        | None => ((-1)%Z, st2)
        end
    end.

(** Calls forwarded to the selected backend. *)
Inductive call := CallEnable (b : backend) | CallDisable (b : backend).

Definition set_enabled (st : ctrl) (e : bool) : ctrl :=
  mk_ctrl (autosuspend_ops st) e (autosuspend_inited st)
          (wait_for_earlysuspend st).

(** [autosuspend_enable]; [be_ret] is what [autosuspend_ops->enable()]
    returns.  The result: the return code, the new state and the backend
    calls made. *)
Definition autosuspend_enable (env : init_env) (be_ret : Z) (st : ctrl)
  : Z * ctrl * list call :=
  let '(ret, st1) := autosuspend_init env st in
  if negb (ret =? 0)%Z then (ret, st1, [])
  else if autosuspend_enabled st1 then (0%Z, st1, [])
  else match autosuspend_ops st1 with
       | None => (0%Z, st1, [])   (* not reached: init selected a backend *)
       | Some b =>
           if negb (be_ret =? 0)%Z then (be_ret, st1, [CallEnable b])
           else (0%Z, set_enabled st1 true, [CallEnable b])
       end.

Definition autosuspend_disable (env : init_env) (be_ret : Z) (st : ctrl)
  : Z * ctrl * list call :=
  let '(ret, st1) := autosuspend_init env st in
  if negb (ret =? 0)%Z then (ret, st1, [])
  else if negb (autosuspend_enabled st1) then (0%Z, st1, [])
  else match autosuspend_ops st1 with
       | None => (0%Z, st1, [])   (* not reached: init selected a backend *)
       | Some b =>
           if negb (be_ret =? 0)%Z then (be_ret, st1, [CallDisable b])
           else (0%Z, set_enabled st1 false, [CallDisable b])
       end.

(** States of the controller reachable from process start. *)
Inductive reachable : ctrl -> Prop :=
| reach_init : reachable init_ctrl
| reach_enable env r st :
    reachable st -> reachable (snd (fst (autosuspend_enable env r st)))
| reach_disable env r st :
    reachable st -> reachable (snd (fst (autosuspend_disable env r st))).

End Controller.

(* ------------------------------------------------------------------ *)
(** ** The lockout semaphore: callers of the wakeup-count backend's
       [enable]/[disable] interleaved with [suspend_thread_func] *)

Module Lockout.

(** Where the suspend thread is in its loop body. *)
Inductive loop_phase :=
| PTop                 (* before reading wakeup_count *)
| PArmed (tok : string)  (* token read, before sem_wait *)
| PHeld (tok : string)   (* permit taken, before the commit write *)
| PCommitted           (* commit accepted, before the sleep-state write *)
| PRelease.            (* before sem_post *)

(** [sem]: the value of [suspend_lockout]; [posted]: permits posted by
    [autosuspend_wakeup_count_enable]; [consumed]: permits taken by
    [autosuspend_wakeup_count_disable]. *)
Record sys := mk_sys {
  sem : nat;
  posted : nat;
  consumed : nat;
  phase : loop_phase
}.

Definition init_sys : sys := mk_sys 0 0 0 PTop.

Definition set_phase (s : sys) (p : loop_phase) : sys :=
  mk_sys (sem s) (posted s) (consumed s) p.

Inductive label :=
| LEnable                        (* sem_post in enable() *)
| LEnableFail                    (* sem_post in enable() fails *)
| LDisable                       (* sem_wait in disable() returns *)
| LDisableFail                   (* sem_wait in disable() fails *)
| LRead (tok : string)           (* non-empty wakeup_count read *)
| LReadFail                      (* failed or empty read: continue *)
| LWait                          (* sem_wait in the loop returns *)
| LWaitFail                      (* sem_wait in the loop fails: continue *)
| LCommit (tok : string) (accepted : bool)  (* the commit write *)
| LSuspend                       (* sleep-state write, key, callback *)
| LPost                          (* sem_post in the loop *)
| LPostFail.                     (* sem_post in the loop fails *)

(** [sem_wait] blocks while [sem = 0]: there is no step then. *)
Inductive step : sys -> label -> sys -> Prop :=
| step_enable s :
    step s LEnable (mk_sys (S (sem s)) (S (posted s)) (consumed s) (phase s))
| step_enable_fail s : step s LEnableFail s
| step_disable s n :
    sem s = S n ->
    step s LDisable (mk_sys n (posted s) (S (consumed s)) (phase s))
| step_disable_fail s : step s LDisableFail s
| step_read s tok :
    phase s = PTop -> tok <> EmptyString -> step s (LRead tok) (set_phase s (PArmed tok))
| step_read_fail s : phase s = PTop -> step s LReadFail s
| step_wait s tok n :
    phase s = PArmed tok -> sem s = S n ->
    step s LWait (mk_sys n (posted s) (consumed s) (PHeld tok))
| step_wait_fail s tok :
    phase s = PArmed tok -> step s LWaitFail (set_phase s PTop)
| step_commit_ok s tok :
    phase s = PHeld tok -> step s (LCommit tok true) (set_phase s PCommitted)
| step_commit_rejected s tok :
    phase s = PHeld tok -> step s (LCommit tok false) (set_phase s PRelease)
| step_suspend s :
    phase s = PCommitted -> step s LSuspend (set_phase s PRelease)
| step_post s :
    phase s = PRelease ->
    step s LPost (mk_sys (S (sem s)) (posted s) (consumed s) PTop)
| step_post_fail s :
    phase s = PRelease -> step s LPostFail (set_phase s PTop).

Inductive steps : sys -> list label -> sys -> Prop :=
| steps_nil s : steps s [] s
| steps_cons s l s' tr s'' :
    step s l s' -> steps s' tr s'' -> steps s (l :: tr) s''.

Definition reachable (s : sys) : Prop := exists tr, steps init_sys tr s.

(** Permits held by the suspend thread. *)
Definition held (p : loop_phase) : nat :=
  match p with
  | PHeld _ | PCommitted | PRelease => 1
  | _ => 0
  end.

Definition is_enable (l : label) : bool :=
  match l with LEnable => true | _ => false end.

End Lockout.

(* ------------------------------------------------------------------ *)
(** ** The earlysuspend backend ([earlysuspend_thread_func],
       [autosuspend_earlysuspend_enable], [autosuspend_earlysuspend_disable]) *)

Module EarlySuspendBackend.

Inductive es_state := EARLYSUSPEND_ON | EARLYSUSPEND_MEM.

Definition es_state_eqb (a b : es_state) : bool :=
  match a, b with
  | EARLYSUSPEND_ON, EARLYSUSPEND_ON | EARLYSUSPEND_MEM, EARLYSUSPEND_MEM => true
  | _, _ => false
  end.

(** [earlysuspend_thread_func] over a finite prefix of its blocking reads,
    alternately [wait_for_fb_sleep] and [wait_for_fb_wake] ([true]: the
    read succeeded).  The result: the values it assigns to
    [earlysuspend_state], in order, each under the mutex and followed by a
    signal.  A failed read ends the thread. *)
Fixpoint earlysuspend_thread_func (reads : list bool) : list es_state :=
  match reads with
  | [] => []
  | sleep_ok :: rest =>
      if negb sleep_ok then []
      else EARLYSUSPEND_MEM ::
           match rest with
           | [] => []
           | wake_ok :: rest' =>
               if negb wake_ok then []
               else EARLYSUSPEND_ON :: earlysuspend_thread_func rest'
           end
  end.

(** [while (earlysuspend_state != target) pthread_cond_wait(...)]: [cur] is
    the state seen when the loop starts, [wakeups] the states seen after
    each return of [pthread_cond_wait].  [Some k]: the loop exits after [k]
    waits; [None]: it is still waiting after all of them. *)
Fixpoint cond_wait_loop (target cur : es_state) (wakeups : list es_state)
  : option nat :=
  if es_state_eqb cur target then Some 0
  else match wakeups with
       | [] => None
       | s :: rest => option_map S (cond_wait_loop target s rest)
       end.

Definition pwr_state_on : string := "on".

(** [autosuspend_earlysuspend_enable]: [sleep_state] is [get_sleep_state()],
    [write_ret] what the write to the power-state node returns, [wait] the
    flag [wait_for_earlysuspend].  The result: the strings written to the
    node, and the return value ([None] while the call is still blocked). *)
Definition autosuspend_earlysuspend_enable (sleep_state : string) (write_ret : Z)
  (wait : bool) (cur : es_state) (wakeups : list es_state)
  : list string * option Z :=
  if (write_ret <? 0)%Z then ([sleep_state], Some write_ret)
  else ([sleep_state],
        if wait then
          match cond_wait_loop EARLYSUSPEND_MEM cur wakeups with
          | Some _ => Some 0%Z
          | None => None
          end
        else Some 0%Z).

(** [autosuspend_earlysuspend_disable]: a failed write is only logged (in
    DEBUG builds). *)
Definition autosuspend_earlysuspend_disable (write_ret : Z) (wait : bool)
  (cur : es_state) (wakeups : list es_state) : list string * option Z :=
  ([pwr_state_on],
   if wait then
     match cond_wait_loop EARLYSUSPEND_ON cur wakeups with
     | Some _ => Some 0%Z
     | None => None
     end
   else Some 0%Z).

End EarlySuspendBackend.

(* ------------------------------------------------------------------ *)
(** ** Setup of the wakeup-count backend ([init_android_power_button],
       [autosuspend_wakeup_count_init]) *)

Module WakeupCountSetup.

Inductive pb_action :=
| PBOpenUinput
| PBWriteUserDev
| PBSetEvBitKey
| PBSetKeyBitPower
| PBSetKeyBitWakeup
| PBDevCreate
| PBThreadCreate.

(** [init_android_power_button]: [uinput_fd] is the static descriptor
    (initially -1), [open_ret] what [open("/dev/uinput")] would return.
    The result: the new [uinput_fd] and the operations performed. *)
Definition init_android_power_button (open_ret : Z) (uinput_fd : Z)
  : Z * list pb_action :=
  if (uinput_fd >=? 0)%Z then (uinput_fd, [])
  else if (open_ret <? 0)%Z then (open_ret, [PBOpenUinput])
  else (open_ret, [PBOpenUinput; PBWriteUserDev; PBSetEvBitKey;
                   PBSetKeyBitPower; PBSetKeyBitWakeup; PBDevCreate;
                   PBThreadCreate]).

(** Successive calls, each with the result its [open] would have. *)
Fixpoint run_init_power_button (opens : list Z) (uinput_fd : Z)
  : list pb_action :=
  match opens with
  | [] => []
  | o :: rest =>
      let '(fd, acts) := init_android_power_button o uinput_fd in
      acts ++ run_init_power_button rest fd
  end.

Inductive resource :=
| RUinputFd | RPowerbtndThread
| RStateFd | RWakeupCountFd | RSemaphore | RSuspendThread.

Inductive res_action := Acquire (r : resource) | Release (r : resource).

(** [autosuspend_wakeup_count_init]: first [init_android_power_button]
    (with [open_ret] and the static [uinput_fd] as there), whose uinput
    descriptor and thread are acquired when it opens the device, then the
    opens, [sem_init] and [pthread_create] with the [goto] ladder.  The
    result: the new [uinput_fd], the acquisitions and releases, and the
    returned ops. *)
Definition autosuspend_wakeup_count_init (open_ret uinput_fd : Z)
  (state_ok count_ok sem_ok thread_ok : bool)
  : Z * list res_action * option Controller.backend :=
  let '(fd', _) := init_android_power_button open_ret uinput_fd in
  let power_button :=
    if (uinput_fd <? 0)%Z && (0 <=? fd')%Z
    then [Acquire RUinputFd; Acquire RPowerbtndThread] else [] in
  let err_open_state := [] in
  let err_open_wakeup_count := Release RStateFd :: err_open_state in
  let err_sem_init := Release RWakeupCountFd :: err_open_wakeup_count in
  let err_pthread_create := Release RSemaphore :: err_sem_init in
  let '(acts, ops) :=
    if negb state_ok then (err_open_state, None)
    else if negb count_ok then (Acquire RStateFd :: err_open_wakeup_count, None)
    else if negb sem_ok then
      ([Acquire RStateFd; Acquire RWakeupCountFd] ++ err_sem_init, None)
    else if negb thread_ok then
      ([Acquire RStateFd; Acquire RWakeupCountFd; Acquire RSemaphore]
         ++ err_pthread_create, None)
    else ([Acquire RStateFd; Acquire RWakeupCountFd; Acquire RSemaphore;
           Acquire RSuspendThread], Some Controller.WakeupCount) in
  (fd', power_button ++ acts, ops).



End WakeupCountSetup.

(* ------------------------------------------------------------------ *)
(** ** The controller driving the wakeup-count backend's semaphore *)

Module ControllerLockout.
Import Controller.

(** The controller's state with the permits its backend calls posted
    ([sem_post] in [autosuspend_wakeup_count_enable] returning 0) and
    consumed ([sem_wait] in [autosuspend_wakeup_count_disable] returning
    0). *)
Record csys := mk_csys { cs_ctrl : ctrl; cs_posted : nat; cs_consumed : nat }.

Definition init_csys : csys := mk_csys init_ctrl 0 0.

Inductive ctrl_op :=
| OpEnable (env : init_env) (r : Z)
| OpDisable (env : init_env) (r : Z).

Definition wc_posts (calls : list call) (r : Z) : nat :=
  if (r =? 0)%Z then
    List.length (filter (fun c => match c with CallEnable WakeupCount => true | _ => false end) calls)
  else 0.

Definition wc_waits (calls : list call) (r : Z) : nat :=
  if (r =? 0)%Z then
    List.length (filter (fun c => match c with CallDisable WakeupCount => true | _ => false end) calls)
  else 0.

Definition run_op (s : csys) (o : ctrl_op) : csys :=
  match o with
  | OpEnable env r =>
      let '(_, c', calls) := autosuspend_enable env r (cs_ctrl s) in
      mk_csys c' (cs_posted s + wc_posts calls r) (cs_consumed s)
  | OpDisable env r =>
      let '(_, c', calls) := autosuspend_disable env r (cs_ctrl s) in
      mk_csys c' (cs_posted s) (cs_consumed s + wc_waits calls r)
  end.

Definition run_ops (os : list ctrl_op) (s : csys) : csys := fold_left run_op os s.

End ControllerLockout.

(* ================================================================== *)
(** * Properties *)

(* ------------------------------------------------------------------ *)
(** ** Shape of synthetic key events *)

Module InputFacts.
Import Input.

Lemma written_app : forall a b, written (a ++ b) = written a ++ written b.
Proof. intros a b. unfold written. apply flat_map_app. Qed.

Lemma key_edges_app : forall a b,
  key_edges a -> key_edges b -> key_edges (a ++ b).
Proof.
  fix IH 1. intros [|x [|y a]] b Ha Hb; simpl in *; try tauto.
  destruct Ha as (H1 & H2 & H3). repeat split; auto.
Qed.

Lemma key_edges_emit_key : forall code val,
  key_edges (written (emit_key code val)).
Proof. intros. simpl. repeat split. Qed.

Lemma key_edges_send_key_power : forall b,
  key_edges (written (send_key_power b)).
Proof.
  intros b. unfold send_key_power. rewrite !written_app.
  apply key_edges_app; [apply key_edges_emit_key|].
  apply key_edges_app; [destruct b; simpl; exact I|apply key_edges_emit_key].
Qed.

Lemma key_edges_send_key_wakeup : key_edges (written send_key_wakeup).
Proof. simpl. repeat split. Qed.

End InputFacts.

Module SuspendLoopFacts.
Import Input SuspendLoop.

(** The uinput writes among the effects of a cycle. *)
Definition uinput_of (effs : list effect) : list uaction :=
  flat_map (fun e => match e with EUinput a => [a] | _ => [] end) effs.

Lemma uinput_of_suspend_cycle : forall rd w c s ss f,
  uinput_of (suspend_cycle rd w c s ss f) = [] \/
  uinput_of (suspend_cycle rd w c s ss f) = send_key_wakeup.
Proof.
  intros [[|a tok]|] w c s ss f; simpl; auto.
  destruct w, c, s, f; simpl; auto.
Qed.

End SuspendLoopFacts.

Module PowerBtnFacts.
Import Input PowerBtn.

Lemma key_edges_handle_event : forall dc st iev,
  key_edges (written (snd (handle_event dc st iev))).
Proof.
  intros dc st iev. unfold handle_event.
  destruct (_ && _ && _); [destruct (_ || _)|destruct (_ && _ && _)]; simpl;
    try exact I; apply InputFacts.key_edges_send_key_power.
Qed.

Lemma key_edges_handle_reads : forall dc reads st,
  key_edges (written (snd (handle_reads dc st reads))).
Proof.
  intros dc reads. induction reads as [|[iev|] rest IH]; intros st; simpl.
  - exact I.
  - pose proof (key_edges_handle_event dc st iev) as He.
    destruct (handle_event dc st iev) as [st1 o1] eqn:E1.
    specialize (IH st1).
    destruct (handle_reads dc st1 rest) as [st2 o2] eqn:E2. simpl in *.
    rewrite InputFacts.written_app. apply InputFacts.key_edges_app; assumption.
  - apply IH.
Qed.

Lemma key_edges_power_loop : forall dc cnt polls st,
  key_edges (written (power_loop dc cnt polls st)).
Proof.
  intros dc [|c] polls; [intros; destruct polls as [|[]]; exact I|].
  induction polls as [|[| |reads] rest IH]; intros st; cbn [power_loop];
    try (simpl; exact I).
  - rewrite InputFacts.written_app. apply InputFacts.key_edges_app;
      [apply InputFacts.key_edges_send_key_power|apply IH].
  - pose proof (key_edges_handle_reads dc reads st) as Hr.
    destruct (handle_reads dc st reads) as [st' out]. simpl in Hr.
    rewrite InputFacts.written_app. apply InputFacts.key_edges_app; auto.
Qed.

End PowerBtnFacts.

Module SleepStateFacts.
Import SleepState.

Lemma run_get_sleep_state_cached : forall es c,
  c <> EmptyString -> run_get_sleep_state es c = repeat c (List.length es).
Proof.
  induction es as [|e es IH]; intros c Hc; [reflexivity|].
  simpl. destruct c as [|a t]; [congruence|].
  simpl. f_equal. apply IH. discriminate.
Qed.

Lemma resolved_nonempty : forall e : sleep_env,
  (if (0 <? String.length (prop_sleep_state e))%nat then prop_sleep_state e
   else if sleep_state_available (sys_power_state e) default_sleep_state
   then default_sleep_state else fallback_sleep_state) <> EmptyString.
Proof.
  intros e. destruct (0 <? String.length (prop_sleep_state e))%nat eqn:E.
  - intros H. rewrite H in E. discriminate.
  - destruct (sleep_state_available _ _); discriminate.
Qed.

Lemma prefix_spec : forall s1 s2,
  String.prefix s1 s2 = true <-> exists t, s2 = String.append s1 t.
Proof.
  induction s1 as [|a s1 IH]; intros [|b s2]; simpl.
  - split; [intros _; exists EmptyString; reflexivity|reflexivity].
  - split; [intros _; exists (String b s2); reflexivity|reflexivity].
  - split; [discriminate|intros [t Ht]; discriminate].
  - destruct (Ascii.ascii_dec a b) as [->|Hne].
    + rewrite IH. split; intros [t Ht]; exists t; [congruence|injection Ht; auto].
    + split; [discriminate|intros [t Ht]; injection Ht; intros; congruence].
Qed.

Lemma strstr_eq : forall hay needle,
  strstr hay needle =
  if String.prefix needle hay then true
  else match hay with EmptyString => false | String _ t => strstr t needle end.
Proof. intros [|c t] needle; reflexivity. Qed.

Lemma strstr_spec : forall hay needle,
  strstr hay needle = true <->
  exists pre post, hay = String.append pre (String.append needle post).
Proof.
  induction hay as [|c hay IH]; intros needle; rewrite strstr_eq.
  - destruct (String.prefix needle EmptyString) eqn:Ep.
    + split; [intros _|reflexivity].
      apply prefix_spec in Ep as [t Ht]. exists EmptyString, t. exact Ht.
    + split; [discriminate|].
      intros [[|x pre] [post Hp]]; simpl in Hp; [|discriminate].
      rewrite <- Ep. apply prefix_spec. exists post. exact Hp.
  - destruct (String.prefix needle (String c hay)) eqn:Ep.
    + split; [intros _|reflexivity].
      apply prefix_spec in Ep as [t Ht]. exists EmptyString, t. exact Ht.
    + rewrite IH. split.
      * intros [pre [post Hp]]. exists (String c pre), post. simpl. congruence.
      * intros [[|x pre] [post Hp]]; simpl in Hp.
        -- exfalso. assert (String.prefix needle (String c hay) = true)
             by (apply prefix_spec; exists post; exact Hp). congruence.
        -- injection Hp as _ Hp. exists pre, post. exact Hp.
Qed.


Lemma append_assoc' : forall a b c : string,
  String.append (String.append a b) c = String.append a (String.append b c).
Proof. induction a as [|x a IH]; intros b c; simpl; [reflexivity|rewrite IH; reflexivity]. Qed.

Lemma strstr_app_l : forall a b needle,
  strstr a needle = true -> strstr (String.append a b) needle = true.
Proof.
  intros a b needle H. apply strstr_spec in H as (pre & post & ->).
  apply strstr_spec. exists pre, (String.append post b).
  rewrite !append_assoc'. reflexivity.
Qed.

Lemma substring_min : forall s n,
  substring 0 (Nat.min n (String.length s)) s = substring 0 n s.
Proof.
  induction s as [|c s IH]; intros [|n]; simpl; try reflexivity.
  rewrite IH. reflexivity.
Qed.

Lemma c_string_app : forall a b,
  no_nul a = true -> c_string (String.append a b) = String.append a (c_string b).
Proof.
  induction a as [|c a IH]; intros b H; simpl in *; [reflexivity|].
  apply andb_prop in H as [H1 H2]. apply negb_true_iff in H1.
  rewrite H1, IH by exact H2. reflexivity.
Qed.

Lemma listed_found : forall nd state,
  node_read_ok nd = true -> listed nd state ->
  sleep_state_available (Some nd) state = true.
Proof.
  intros nd state Hr [Hn Hs]. unfold sleep_state_available, read_buf.
  rewrite Hr. cbv zeta. rewrite substring_min, append_assoc', c_string_app by exact Hn.
  apply strstr_app_l. exact Hs.
Qed.

End SleepStateFacts.

Module ControllerFacts.
Import Controller.

Lemma init_inited : forall env st,
  autosuspend_inited st = true -> autosuspend_init env st = (0%Z, st).
Proof. intros env st H. unfold autosuspend_init. rewrite H. reflexivity. Qed.

Lemma init_fresh : forall env,
  (exists st1, autosuspend_init env init_ctrl = (0%Z, st1) /\
     autosuspend_inited st1 = true /\ autosuspend_ops st1 <> None /\
     autosuspend_enabled st1 = false) \/
  autosuspend_init env init_ctrl = ((-1)%Z, init_ctrl).
Proof.
  intros [p es fs fw et wo wc ws wt].
  unfold autosuspend_init, autosuspend_earlysuspend_init,
    autosuspend_wakeup_count_init, start_earlysuspend_thread; simpl.
  destruct (first_char_is_1 (property_get p "1")), es, fs, fw, et, wo, wc, ws, wt;
    simpl;
    first [right; reflexivity
          | left; eexists; split; [reflexivity|]; simpl;
            repeat split; discriminate].
Qed.

(** Invariant of reachable states. *)
Definition ctrl_wf (st : ctrl) : Prop :=
  (autosuspend_inited st = true -> autosuspend_ops st <> None) /\
  (autosuspend_inited st = false -> st = init_ctrl).

Lemma ctrl_wf_init : ctrl_wf init_ctrl.
Proof. split; [discriminate|reflexivity]. Qed.

Lemma init_wf : forall env st,
  ctrl_wf st ->
  (exists st1, autosuspend_init env st = (0%Z, st1) /\ ctrl_wf st1 /\
     autosuspend_inited st1 = true /\ autosuspend_ops st1 <> None /\
     autosuspend_enabled st1 = autosuspend_enabled st) \/
  (autosuspend_init env st = ((-1)%Z, init_ctrl) /\ st = init_ctrl).
Proof.
  intros env st [H1 H2].
  destruct (autosuspend_inited st) eqn:Ei.
  - left. exists st. rewrite init_inited by assumption.
    repeat split; auto. congruence.
  - specialize (H2 eq_refl). subst st.
    destruct (init_fresh env) as [(st1 & E & Hi & Ho & He)|E]; [left|right; auto].
    exists st1. repeat split; auto; congruence.
Qed.

Lemma set_enabled_wf : forall st e,
  ctrl_wf st -> autosuspend_inited st = true -> ctrl_wf (set_enabled st e).
Proof.
  intros st e [H1 H2] Hi. split; simpl; intros H; [apply H1; auto|congruence].
Qed.

Lemma reachable_wf : forall st, reachable st -> ctrl_wf st.
Proof.
  induction 1 as [|env r st Hr IH|env r st Hr IH]; [apply ctrl_wf_init| |].
  - unfold autosuspend_enable.
    destruct (init_wf env st IH) as [(st1 & E & Hw & Hi & Ho & He)|(E & ->)];
      rewrite E; simpl; [|apply ctrl_wf_init].
    destruct (autosuspend_enabled st1); simpl; auto.
    destruct (autosuspend_ops st1); simpl; auto.
    destruct (negb (r =? 0)%Z); simpl; auto. apply set_enabled_wf; auto.
  - unfold autosuspend_disable.
    destruct (init_wf env st IH) as [(st1 & E & Hw & Hi & Ho & He)|(E & ->)];
      rewrite E; simpl; [|apply ctrl_wf_init].
    destruct (autosuspend_enabled st1); simpl; auto.
    destruct (autosuspend_ops st1); simpl; auto.
    destruct (negb (r =? 0)%Z); simpl; auto. apply set_enabled_wf; auto.
Qed.

Lemma reachable_enabled_inited : forall st,
  reachable st -> autosuspend_enabled st = true -> autosuspend_inited st = true.
Proof.
  intros st Hr He. destruct (reachable_wf st Hr) as [_ H2].
  destruct (autosuspend_inited st) eqn:Ei; auto.
  rewrite (H2 eq_refl) in He. discriminate.
Qed.

End ControllerFacts.

(* ------------------------------------------------------------------ *)
(** ** Claims *)

Module Claims.
Import Input SuspendLoop SleepState Callback PowerBtn.

(** C9: every synthetic injection is a sequence of key edges, each an
    [EV_KEY] event immediately followed by an [EV_SYN]/[SYN_REPORT] with
    value 0, both from the suspend loop (its post-resume wakeup pair) and
    from the power-button thread (its replayed presses); [send_key_wakeup]
    writes exactly a [KEY_WAKEUP] press (1) then a [KEY_WAKEUP] release
    (0). *)
Theorem synthetic_key_injection_shape :
  written send_key_wakeup =
    [mk_iev EV_KEY KEY_WAKEUP 1; mk_iev EV_SYN SYN_REPORT 0;
     mk_iev EV_KEY KEY_WAKEUP 0; mk_iev EV_SYN SYN_REPORT 0]%Z /\
  (forall code val,
     written (emit_key code val) =
       [mk_iev EV_KEY code val; mk_iev EV_SYN SYN_REPORT 0%Z]) /\
  (forall rd w c s ss f,
     key_edges (written (SuspendLoopFacts.uinput_of (suspend_cycle rd w c s ss f)))) /\
  (forall dc dir polls,
     key_edges (written (powerbtnd_thread_func dc dir polls))).
Proof.
  split; [reflexivity|]. split; [reflexivity|]. split.
  - intros rd w c s ss f.
    destruct (SuspendLoopFacts.uinput_of_suspend_cycle rd w c s ss f) as [E|E];
      rewrite E; [exact I|apply InputFacts.key_edges_send_key_wakeup].
  - intros dc dir polls. apply PowerBtnFacts.key_edges_power_loop.
Qed.

(** C2 (as stated): with a callback registered, a cycle whose commit write
    is rejected does not call it with [success = false]. *)
Lemma commit_rejected_no_false_callback :
  ~ In (ECallback 0 false) (suspend_cycle (Some "42"%string) true false true "mem"%string (Some 0)).
Proof. simpl. intuition discriminate. Qed.

(** C2 (amended): when the commit write of a non-empty token is rejected,
    the cycle only releases the semaphore: nothing is written to the
    sleep-state node, no key is synthesized and the callback is not
    invoked at all.  The callback runs only after an accepted commit, with
    [success] false exactly when the sleep-state write fails. *)
Theorem commit_rejected_skips_suspend_and_callback :
  forall tok state_ok sleep_state wakeup_func,
  tok <> EmptyString ->
  suspend_cycle (Some tok) true false state_ok sleep_state wakeup_func =
    [EUsleep; EReadCount; ESemWait; EWriteCount tok; ESemPost] /\
  (forall f,
     In (ECallback f false) (suspend_cycle (Some tok) true true state_ok sleep_state (Some f))
     <-> state_ok = false).
Proof.
  intros tok state_ok ss wf Htok.
  destruct tok as [|a t]; [congruence|]. split; [reflexivity|].
  intros f. simpl. destruct state_ok; simpl; split; intros H.
  - repeat (destruct H as [H|H]; [discriminate|]). contradiction.
  - discriminate.
  - reflexivity.
  - tauto.
Qed.

Lemma commit_rejected_skips_suspend_and_callback_witness :
  "42"%string <> EmptyString /\
  suspend_cycle (Some "42"%string) true false true "mem"%string (Some 0) =
    [EUsleep; EReadCount; ESemWait; EWriteCount "42"%string; ESemPost] /\
  (forall f,
     In (ECallback f false) (suspend_cycle (Some "42"%string) true true true "mem"%string (Some f))
     <-> true = false).
Proof.
  split; [discriminate|].
  apply (commit_rejected_skips_suspend_and_callback "42"%string true "mem"%string (Some 0)).
  discriminate.
Defined.

(** C4: [get_sleep_state] resolves once, with precedence property >
    "mem" when the probe finds it > "freeze", and every later call,
    whatever the property and the kernel then say, returns the cached
    value; "mem" is picked whenever the kernel lists it in the first 64
    bytes of [/sys/power/state].  But the probe scans an unterminated
    stack buffer: with the kernel listing only "freeze", stale bytes
    left in [buf] after the text (or all of [buf] when [read] fails)
    make it pick "mem". *)
Theorem get_sleep_state_probe_reads_stale_bytes :
  (forall e es,
     run_get_sleep_state (e :: es) EmptyString =
     repeat (if (0 <? String.length (prop_sleep_state e))%nat then prop_sleep_state e
             else if sleep_state_available (sys_power_state e) "mem"%string
             then "mem"%string else "freeze"%string) (S (List.length es))) /\
  (forall e nd,
     prop_sleep_state e = EmptyString -> sys_power_state e = Some nd ->
     node_read_ok nd = true -> listed nd "mem"%string ->
     run_get_sleep_state [e] EmptyString = ["mem"%string]) /\
  (let nd := mk_node (String.append "freeze" (String "010"%char EmptyString))
               true "0123456mem" EmptyString in
   strstr (node_content nd) "mem" = false /\
   run_get_sleep_state [mk_sleep_env EmptyString (Some nd)] EmptyString
     = ["mem"%string]) /\
  (let nd := mk_node (String.append "freeze" (String "010"%char EmptyString))
               false "mem" EmptyString in
   strstr (node_content nd) "mem" = false /\
   run_get_sleep_state [mk_sleep_env EmptyString (Some nd)] EmptyString
     = ["mem"%string]).
Proof.
  split; [|split; [|split; split; vm_compute; reflexivity]].
  - intros e es. simpl.
    f_equal. apply SleepStateFacts.run_get_sleep_state_cached.
    apply SleepStateFacts.resolved_nonempty.
  - intros e nd Hp Hn Hr Hl. cbn [run_get_sleep_state].
    unfold get_sleep_state, default_sleep_state. rewrite Hp, Hn.
    rewrite (SleepStateFacts.listed_found nd "mem" Hr Hl). reflexivity.
Qed.

Lemma get_sleep_state_probe_reads_stale_bytes_witness :
  let nd := mk_node "freeze mem disk" true EmptyString EmptyString in
  listed nd "mem"%string /\
  run_get_sleep_state [mk_sleep_env EmptyString (Some nd)] EmptyString = ["mem"%string].
Proof.
  split; [split; vm_compute; reflexivity|].
  apply (proj1 (proj2 get_sleep_state_probe_reads_stale_bytes)
           (mk_sleep_env EmptyString (Some (mk_node "freeze mem disk" true EmptyString EmptyString)))
           (mk_node "freeze mem disk" true EmptyString EmptyString));
    [reflexivity|reflexivity|reflexivity|split; vm_compute; reflexivity].
Defined.

(** C6: the callback is stored only while the slot is empty; once one is
    registered, every later call is logged and leaves it in place. *)
Theorem set_wakeup_callback_keeps_first :
  (forall g, set_wakeup_callback g None = (g, false)) /\
  (forall f g, set_wakeup_callback g (Some f) = (Some f, true)) /\
  (forall f gs, register_all gs (Some f) = Some f).
Proof.
  split; [reflexivity|]. split; [reflexivity|].
  intros f gs. unfold register_all. induction gs as [|g gs IH]; simpl; auto.
Qed.

End Claims.

Module ControllerClaims.
Import Controller ControllerFacts.

(** C3 (as stated): with [sleep.earlysuspend] unset (default "1") and a
    readable power-state node, the earlysuspend backend is selected even
    though neither fb-wait node exists. *)
Lemma earlysuspend_selected_without_fb_nodes :
  autosuspend_init (mk_init_env "" true false false true true true true true) init_ctrl
  = (0%Z, mk_ctrl (Some EarlySuspend) false true false).
Proof. reflexivity. Qed.

(** C3 (amended): at the first initialization, the earlysuspend backend is
    selected iff the [sleep.earlysuspend] flag is set (unset counts as "1")
    and the power-state node can be opened and read; otherwise the
    wakeup-count backend is selected if its own initialization succeeds,
    and no backend at all if it fails.  The fb-wait nodes do not take part
    in the selection: with the earlysuspend backend selected, their
    presence (with the thread started) only decides whether enable/disable
    wait for the framebuffer transition. *)
Theorem backend_selection_deterministic : forall env,
  let st := snd (autosuspend_init env init_ctrl) in
  autosuspend_ops st =
    (if first_char_is_1 (property_get (prop_earlysuspend env) "1")
        && es_power_state_ok env then Some EarlySuspend
     else if wc_state_open_ok env && wc_count_open_ok env && wc_sem_init_ok env
             && wc_thread_ok env then Some WakeupCount
     else None) /\
  wait_for_earlysuspend st =
    (first_char_is_1 (property_get (prop_earlysuspend env) "1")
     && es_power_state_ok env && fb_sleep_exists env && fb_wake_exists env
     && es_thread_ok env).
Proof.
  intros [p es fs fw et wo wc ws wt].
  unfold autosuspend_init, autosuspend_earlysuspend_init,
    autosuspend_wakeup_count_init, start_earlysuspend_thread; simpl.
  destruct (first_char_is_1 (property_get p "1")), es, fs, fw, et, wo, wc, ws, wt;
    split; reflexivity.
Qed.

(** C5 (as stated): in a fresh process where no backend can be
    initialized, [autosuspend_disable] in the DISABLED state returns -1,
    not 0: the initialization error comes first. *)
Lemma disable_when_disabled_returns_init_error :
  autosuspend_disable (mk_init_env "0" false false false false false false false false)
    0%Z init_ctrl = ((-1)%Z, init_ctrl, []) /\
  autosuspend_enabled init_ctrl = false.
Proof. split; reflexivity. Qed.

(** C5 (amended): in every reachable state, enable and disable first run
    the one-time initialization; if it fails they return -1, call no
    backend and leave the state DISABLED.  Once it succeeds (a backend
    [b] is selected): [autosuspend_enable] returns 0 and calls nothing
    when ENABLED, and otherwise calls [b]'s [enable] and returns its
    status, becoming ENABLED only on status 0 (staying DISABLED on a
    non-zero status); [autosuspend_disable] is the mirror image for
    DISABLED.  When ENABLED, initialization has already succeeded and
    returns 0 at once. *)
Theorem controller_enable_disable_forward : forall env r st,
  reachable st ->
  (forall st1, autosuspend_init env st = ((-1)%Z, st1) ->
     autosuspend_enabled st1 = false /\
     autosuspend_enable env r st = ((-1)%Z, st1, []) /\
     autosuspend_disable env r st = ((-1)%Z, st1, [])) /\
  (forall st1, autosuspend_init env st = (0%Z, st1) ->
     autosuspend_enabled st1 = autosuspend_enabled st /\
     exists b, autosuspend_ops st1 = Some b /\
     autosuspend_enable env r st =
       (if autosuspend_enabled st then (0%Z, st1, [])
        else if (r =? 0)%Z then (0%Z, set_enabled st1 true, [CallEnable b])
        else (r, st1, [CallEnable b])) /\
     autosuspend_disable env r st =
       (if negb (autosuspend_enabled st) then (0%Z, st1, [])
        else if (r =? 0)%Z then (0%Z, set_enabled st1 false, [CallDisable b])
        else (r, st1, [CallDisable b]))) /\
  (autosuspend_enabled st = true -> autosuspend_init env st = (0%Z, st)).
Proof.
  intros env r st Hr. pose proof (reachable_wf st Hr) as Hw.
  split; [|split].
  - intros st1 Ei.
    destruct (init_wf env st Hw) as [(st2 & E & _)|(E & Hs)];
      rewrite Ei in E; [discriminate|].
    injection E as E'. subst st1.
    unfold autosuspend_enable, autosuspend_disable. rewrite Ei.
    repeat split; reflexivity.
  - intros st1 Ei.
    destruct (init_wf env st Hw) as [(st2 & E & _ & _ & Ho & He2)|(E & _)];
      rewrite Ei in E; [|discriminate].
    injection E as E'. subst st2. split; [assumption|].
    destruct (autosuspend_ops st1) as [b|] eqn:Eo; [|congruence].
    exists b. split; [reflexivity|].
    unfold autosuspend_enable, autosuspend_disable. rewrite Ei. simpl.
    rewrite He2, Eo.
    destruct (autosuspend_enabled st), (r =? 0)%Z; split; reflexivity.
  - intros He. apply init_inited, reachable_enabled_inited; auto.
Qed.

Lemma controller_enable_disable_forward_witness :
  reachable init_ctrl /\
  let env := mk_init_env "" true false false true true true true true in
  (forall st1, autosuspend_init env init_ctrl = ((-1)%Z, st1) ->
     autosuspend_enabled st1 = false /\
     autosuspend_enable env (-5)%Z init_ctrl = ((-1)%Z, st1, []) /\
     autosuspend_disable env (-5)%Z init_ctrl = ((-1)%Z, st1, [])) /\
  (forall st1, autosuspend_init env init_ctrl = (0%Z, st1) ->
     autosuspend_enabled st1 = autosuspend_enabled init_ctrl /\
     exists b, autosuspend_ops st1 = Some b /\
     autosuspend_enable env (-5)%Z init_ctrl =
       (if autosuspend_enabled init_ctrl then (0%Z, st1, [])
        else if ((-5) =? 0)%Z then (0%Z, set_enabled st1 true, [CallEnable b])
        else ((-5)%Z, st1, [CallEnable b])) /\
     autosuspend_disable env (-5)%Z init_ctrl =
       (if negb (autosuspend_enabled init_ctrl) then (0%Z, st1, [])
        else if ((-5) =? 0)%Z then (0%Z, set_enabled st1 false, [CallDisable b])
        else ((-5)%Z, st1, [CallDisable b]))) /\
  (autosuspend_enabled init_ctrl = true -> autosuspend_init env init_ctrl = (0%Z, init_ctrl)).
Proof.
  split; [constructor|].
  apply (controller_enable_disable_forward
           (mk_init_env "" true false false true true true true true) (-5)%Z init_ctrl).
  constructor.
Defined.

(** C10: a failed initialization latches nothing: the controller is back
    in its process-start state (no backend, not inited), enable and
    disable return the error, and the next call probes the backends again
    exactly as the first call of the process does.  A successful
    initialization is cached: every later call returns 0 at once without
    probing. *)
Theorem failed_init_not_latched : forall env st st1,
  reachable st ->
  (autosuspend_init env st = ((-1)%Z, st1) ->
     st1 = init_ctrl /\ autosuspend_inited st1 = false /\
     autosuspend_ops st1 = None /\
     (forall r, autosuspend_enable env r st = ((-1)%Z, init_ctrl, [])) /\
     (forall r, autosuspend_disable env r st = ((-1)%Z, init_ctrl, [])) /\
     (forall env', autosuspend_init env' st1 = autosuspend_init env' init_ctrl)) /\
  (autosuspend_init env st = (0%Z, st1) ->
     autosuspend_inited st1 = true /\
     forall env', autosuspend_init env' st1 = (0%Z, st1)).
Proof.
  intros env st st1 Hr. pose proof (reachable_wf st Hr) as Hw. split.
  - intros Ei.
    destruct (init_wf env st Hw) as [(st2 & E & _)|(E & Hs)];
      rewrite Ei in E; [discriminate|].
    injection E as E'. subst st1 st.
    repeat split; try reflexivity; intros r;
      unfold autosuspend_enable, autosuspend_disable; rewrite Ei; reflexivity.
  - intros Ei.
    destruct (init_wf env st Hw) as [(st2 & E & _ & Hi & _)|(E & _)];
      rewrite Ei in E; [|discriminate].
    injection E as E'. subst st2.
    split; [assumption|]. intros env'. apply init_inited. assumption.
Qed.

Lemma failed_init_not_latched_witness :
  let env := mk_init_env "0" false false false false false false false false in
  reachable init_ctrl /\
  autosuspend_init env init_ctrl = ((-1)%Z, init_ctrl) /\
  (init_ctrl = init_ctrl /\ autosuspend_inited init_ctrl = false /\
     autosuspend_ops init_ctrl = None /\
     (forall r, autosuspend_enable env r init_ctrl = ((-1)%Z, init_ctrl, [])) /\
     (forall r, autosuspend_disable env r init_ctrl = ((-1)%Z, init_ctrl, [])) /\
     (forall env', autosuspend_init env' init_ctrl = autosuspend_init env' init_ctrl)).
Proof.
  split; [constructor|]. split; [reflexivity|].
  apply (proj1 (failed_init_not_latched
                  (mk_init_env "0" false false false false false false false false)
                  init_ctrl init_ctrl reach_init)).
  reflexivity.
Defined.

End ControllerClaims.

Module LockoutFacts.
Import Lockout.

(** Permits in the semaphore, held by the loop and consumed by
    [disable] never exceed those posted by [enable]. *)
Definition inv (s : sys) : Prop :=
  sem s + held (phase s) + consumed s <= posted s.

Lemma step_inv : forall s l s', step s l s' -> inv s -> inv s'.
Proof.
  unfold inv. intros s l s' Hs.
  destruct Hs; simpl in *;
    repeat match goal with H : phase _ = _ |- _ => rewrite H in * end;
    simpl in *; lia.
Qed.

Lemma steps_inv : forall s tr s', steps s tr s' -> inv s -> inv s'.
Proof.
  induction 1 as [|s l s1 tr s2 Hs Hr IH]; auto.
  intros H. apply IH. eapply step_inv; eauto.
Qed.

Lemma reachable_inv : forall s, reachable s -> inv s.
Proof.
  intros s [tr Hr]. eapply steps_inv; [exact Hr|]. unfold inv; simpl; lia.
Qed.

Lemma step_counters : forall s l s', step s l s' -> l <> LEnable ->
  posted s' = posted s /\ consumed s <= consumed s'.
Proof.
  intros s l s' Hs Hl. destruct Hs; simpl; try congruence; split; lia.
Qed.

Lemma step_commit_held : forall s tok b s',
  step s (LCommit tok b) s' -> held (phase s) = 1.
Proof.
  intros s tok b s' Hs. inversion Hs; subst;
    match goal with H : phase _ = _ |- _ => rewrite H end; reflexivity.
Qed.

Lemma steps_no_commit : forall s tr s',
  steps s tr s' -> inv s -> posted s <= consumed s -> ~ In LEnable tr ->
  forall tok b, ~ In (LCommit tok b) tr.
Proof.
  induction 1 as [|s l s1 tr s2 Hs Hr IH]; intros Hi Hc Hn tok b Hin;
    [exact Hin|].
  simpl in Hn, Hin.
  assert (Hl : l <> LEnable) by tauto.
  destruct Hin as [Heq|Hin].
  - subst l. apply step_commit_held in Hs. unfold inv in Hi. lia.
  - destruct (step_counters _ _ _ Hs Hl) as [Hp Hc'].
    refine (IH (step_inv _ _ _ Hs Hi) _ _ tok b Hin); [lia|tauto].
Qed.

Ltac run_step :=
  eapply steps_cons;
  [ first [ apply step_enable
          | eapply step_disable; reflexivity
          | eapply step_read; [reflexivity|discriminate]
          | eapply step_wait; reflexivity
          | eapply step_commit_ok; reflexivity
          | eapply step_commit_rejected; reflexivity
          | eapply step_suspend; reflexivity
          | eapply step_post; reflexivity ]
  | ].

End LockoutFacts.

Module LockoutClaims.
Import Lockout LockoutFacts.

(** C1 (as stated): with two [enable] posts, a [disable] that has taken a
    permit and is never matched by a later [enable] does not block the
    loop: it reads the counter, takes the surplus permit and commits. *)
Lemma surplus_enable_lets_commit_after_disable :
  steps init_sys
    ([LEnable; LEnable] ++ [LDisable] ++
     [LRead "42"%string; LWait; LCommit "42"%string true])
    (mk_sys 0 2 1 PCommitted) /\
  ~ In LEnable [LRead "42"%string; LWait; LCommit "42"%string true] /\
  In (LCommit "42"%string true) [LRead "42"%string; LWait; LCommit "42"%string true].
Proof.
  split; [|split; [simpl; intuition discriminate|simpl; tauto]].
  simpl. do 6 run_step. apply steps_nil.
Qed.

(** C1 (amended): the loop's commit write happens only while it holds a
    permit it took with [sem_wait]; as every [enable] posts one permit and
    every [disable] consumes one, from any reachable point, a commit in the
    continuation requires that more permits were posted by [enable] than
    consumed by [disable] at that point, or a new [enable] in between.
    So once the [disable] calls have consumed every posted permit, no
    commit happens before the next [enable]; surplus [enable] posts,
    which the semaphore does not cap, let commits continue. *)
Theorem commit_needs_unconsumed_enable : forall s0 tr s1,
  reachable s0 -> steps s0 tr s1 ->
  forall tok b, In (LCommit tok b) tr ->
  consumed s0 < posted s0 \/ In LEnable tr.
Proof.
  intros s0 tr s1 Hr Hs tok b Hin.
  destruct (in_dec (fun x y : label => ltac:(decide equality; first
              [apply string_dec | apply Bool.bool_dec])) LEnable tr) as [H|H];
    [right; exact H|left].
  destruct (Nat.lt_ge_cases (consumed s0) (posted s0)) as [Hlt|Hge]; [exact Hlt|].
  exfalso. eapply steps_no_commit; eauto. apply reachable_inv; auto.
Qed.

Lemma commit_needs_unconsumed_enable_witness :
  reachable init_sys /\
  steps init_sys [LEnable; LRead "42"%string; LWait; LCommit "42"%string true]
    (mk_sys 0 1 0 PCommitted) /\
  In (LCommit "42"%string true)
    [LEnable; LRead "42"%string; LWait; LCommit "42"%string true] /\
  (consumed init_sys < posted init_sys \/
   In LEnable [LEnable; LRead "42"%string; LWait; LCommit "42"%string true]).
Proof.
  assert (Hs : steps init_sys
                 [LEnable; LRead "42"%string; LWait; LCommit "42"%string true]
                 (mk_sys 0 1 0 PCommitted)) by (do 4 run_step; apply steps_nil).
  assert (Hin : In (LCommit "42"%string true)
                  [LEnable; LRead "42"%string; LWait; LCommit "42"%string true])
    by (simpl; tauto).
  split; [exists []; constructor|]. split; [exact Hs|]. split; [exact Hin|].
  apply (commit_needs_unconsumed_enable init_sys _ _
           (ex_intro _ [] (steps_nil init_sys)) Hs "42"%string true Hin).
Defined.

End LockoutClaims.

Module PowerBtnScan.
Import Input PowerBtn.

Definition matches (de : dirent) : bool :=
  is_event_node (d_name de) && open_ok de
  && String.eqb (reported_name de) "Power Button".

(** The descriptor operations [openfds] performs for one entry it reads. *)
Definition entry_actions (de : dirent) : list fdaction :=
  if negb (is_event_node (d_name de)) then []
  else if negb (open_ok de) then [FOpenFail (d_name de)]
  else if negb (String.eqb (reported_name de) "Power Button")
  then [FOpen (d_name de); FClose (d_name de)]
  else [FOpen (d_name de)].

Definition entries (dir : option (list dirent)) : list dirent :=
  match dir with None => [] | Some des => des end.

Lemma openfds_loop_spec : forall des cnt, cnt <= MAX_POWERBTNS ->
  fst (openfds_loop cnt des) = firstn (MAX_POWERBTNS - cnt) (filter matches des) /\
  exists pre post, des = pre ++ post /\
    snd (openfds_loop cnt des) = flat_map entry_actions pre.
Proof.
  induction des as [|de rest IH]; intros cnt Hc.
  - cbn [openfds_loop]. split.
    + destruct (cnt <? MAX_POWERBTNS)%nat; cbn [fst filter]; rewrite firstn_nil; reflexivity.
    + exists [], []. split; [reflexivity|].
      destruct (cnt <? MAX_POWERBTNS)%nat; reflexivity.
  - cbn [openfds_loop]. destruct (cnt <? MAX_POWERBTNS)%nat eqn:Elt.
    2:{ apply Nat.ltb_ge in Elt. replace (MAX_POWERBTNS - cnt) with 0 by lia.
        split; [reflexivity|]. exists [], (de :: rest). auto. }
    apply Nat.ltb_lt in Elt.
    assert (Hf : filter matches (de :: rest) =
                 if matches de then de :: filter matches rest
                 else filter matches rest) by reflexivity.
    rewrite Hf.
    destruct (is_event_node (d_name de)) eqn:Ee; cbn [negb].
    + destruct (open_ok de) eqn:Eo; cbn [negb].
      * destruct (String.eqb (reported_name de) "Power Button") eqn:En; cbn [negb].
        -- assert (Hm : matches de = true)
             by (unfold matches; rewrite Ee, Eo, En; reflexivity).
           rewrite Hm.
           destruct (IH (S cnt) ltac:(lia)) as [H1 (pre & post & Hd & H2)].
           destruct (openfds_loop (S cnt) rest) as [k a]. cbn [fst snd] in *.
           split.
           ++ rewrite H1.
              replace (MAX_POWERBTNS - cnt) with (S (MAX_POWERBTNS - S cnt)) by lia.
              reflexivity.
           ++ exists (de :: pre), post. split; [rewrite Hd; reflexivity|].
              cbn [flat_map]. unfold entry_actions at 1. rewrite Ee, Eo, En.
              cbn [negb app]. congruence.
        -- assert (Hm : matches de = false)
             by (unfold matches; rewrite Ee, Eo, En; reflexivity).
           rewrite Hm.
           destruct (IH cnt ltac:(lia)) as [H1 (pre & post & Hd & H2)].
           destruct (openfds_loop cnt rest) as [k a]. cbn [fst snd] in *.
           split; [exact H1|].
           exists (de :: pre), post. split; [rewrite Hd; reflexivity|].
           cbn [flat_map]. unfold entry_actions at 1. rewrite Ee, Eo, En.
           cbn [negb app]. congruence.
      * assert (Hm : matches de = false)
          by (unfold matches; rewrite Ee, Eo; reflexivity).
        rewrite Hm.
        destruct (IH cnt ltac:(lia)) as [H1 (pre & post & Hd & H2)].
        destruct (openfds_loop cnt rest) as [k a]. cbn [fst snd] in *.
        split; [exact H1|].
        exists (de :: pre), post. split; [rewrite Hd; reflexivity|].
        cbn [flat_map]. unfold entry_actions at 1. rewrite Ee, Eo.
        cbn [negb app]. congruence.
    + assert (Hm : matches de = false)
        by (unfold matches; rewrite Ee; reflexivity).
      rewrite Hm.
      destruct (IH cnt ltac:(lia)) as [H1 (pre & post & Hd & H2)].
      split; [exact H1|].
      exists (de :: pre), post. split; [rewrite Hd; reflexivity|].
      cbn [flat_map]. unfold entry_actions at 1. rewrite Ee.
      cbn [negb app]. exact H2.
Qed.

Lemma power_loop_no_devices : forall dc polls st, power_loop dc 0 polls st = [].
Proof. intros dc [|[]] st; reflexivity. Qed.

End PowerBtnScan.

Module PowerBtnClaims.
Import Input PowerBtn PowerBtnScan.

(** C8: the power-button thread scans [/dev/input] once, at its start.
    The entries kept are the first [MAX_POWERBTNS] (3) event nodes that open
    and report the name "Power Button", in directory order; the scan stops
    reading entries after the third match, and each entry it reads adds
    only its own operations, a non-matching node being opened and closed
    right away.  With no match, the thread writes nothing to the uinput
    device whatever happens afterwards.  Nothing else of the wakeup-count
    backend reads the device set: [autosuspend_wakeup_count_init] and
    [suspend_cycle] take no input from it. *)
Theorem power_button_scan_once : forall dir,
  fst (openfds dir) = firstn MAX_POWERBTNS (filter matches (entries dir)) /\
  (exists pre post, entries dir = pre ++ post /\
     snd (openfds dir) = flat_map entry_actions pre) /\
  (forall dc polls, fst (openfds dir) = [] ->
     powerbtnd_thread_func dc dir polls = []).
Proof.
  intros dir.
  assert (H : fst (openfds dir) = firstn MAX_POWERBTNS (filter matches (entries dir)) /\
              exists pre post, entries dir = pre ++ post /\
                snd (openfds dir) = flat_map entry_actions pre).
  { destruct dir as [des|].
    - exact (openfds_loop_spec des 0 ltac:(unfold MAX_POWERBTNS; lia)).
    - split; [reflexivity|]. exists [], []. auto. }
  destruct H as [H1 H2]. split; [exact H1|]. split; [exact H2|].
  intros dc polls H0. unfold powerbtnd_thread_func. rewrite H0.
  apply power_loop_no_devices.
Qed.

Lemma power_button_scan_once_witness :
  let dir := Some [mk_dirent "." true None;
                   mk_dirent "event0" true (Some "AT Keyboard"%string);
                   mk_dirent "mice" true None] in
  fst (openfds dir) = [] /\
  powerbtnd_thread_func false dir [PReady [Some release_ev]] = [].
Proof.
  split; [reflexivity|].
  apply (proj2 (proj2 (power_button_scan_once
    (Some [mk_dirent "." true None;
           mk_dirent "event0" true (Some "AT Keyboard"%string);
           mk_dirent "mice" true None])))).
  reflexivity.
Defined.

End PowerBtnClaims.

Module PowerBtnLoopClaims.
Import Input PowerBtn.

(** The parts of the release handling and of the double-click window that
    behave as described: a release with double-click off or a window
    pending replays one press carrying the current long-press flag and
    closes the window; with double-click on and no window it only arms a
    1000 ms window; a poll timeout replays one short press and closes the
    window; with double-click on, a release then a resume report inside
    the window, then silence or a second release, replays exactly one short
    press. *)
Lemma release_window_behaviour :
  (forall dc st, (negb dc || (timeout st >? 0)%Z) = true ->
     handle_event dc st release_ev =
       (mk_pstate (-1)%Z (longpress st), send_key_power (longpress st))) /\
  (forall st, (timeout st <= 0)%Z ->
     handle_event true st release_ev = (mk_pstate 1000%Z (longpress st), [])) /\
  (forall dc c rest st,
     power_loop dc (S c) (PTimeout :: rest) st =
       send_key_power false ++ power_loop dc (S c) rest (mk_pstate (-1)%Z true)) /\
  (forall c lp,
     power_loop true (S c)
       [PReady [Some release_ev]; PReady [Some resume_ev]; PTimeout]
       (mk_pstate (-1)%Z lp) = send_key_power false) /\
  (forall c lp,
     power_loop true (S c)
       [PReady [Some release_ev]; PReady [Some resume_ev]; PReady [Some release_ev]]
       (mk_pstate (-1)%Z lp) = send_key_power false).
Proof.
  split; [|split; [|split; [|split]]].
  - intros dc st H. unfold handle_event. simpl. rewrite H. reflexivity.
  - intros st H. unfold handle_event. simpl.
    replace (timeout st >? 0)%Z with false; [reflexivity|].
    symmetry. rewrite Z.gtb_ltb. apply Z.ltb_ge. exact H.
  - reflexivity.
  - intros c lp. reflexivity.
  - intros c lp. reflexivity.
Qed.

(** C7: the release path replays a press with the current long-press
    flag but leaves the flag as it was (the poll-timeout path, in
    contrast, resets it to [true] after its press).  With double-click
    off and one "Power Button" device: after a resume report, two releases
    replay two short presses; with no resume report, two releases replay
    two long presses. *)
Theorem release_leaves_longpress_flag :
  (forall st, handle_event false st release_ev =
     (mk_pstate (-1)%Z (longpress st), send_key_power (longpress st))) /\
  powerbtnd_thread_func false
    (Some [mk_dirent "event0" true (Some "Power Button"%string)])
    [PReady [Some resume_ev]; PReady [Some release_ev]; PReady [Some release_ev]]
  = send_key_power false ++ send_key_power false /\
  powerbtnd_thread_func false
    (Some [mk_dirent "event0" true (Some "Power Button"%string)])
    [PReady [Some release_ev]; PReady [Some release_ev]]
  = send_key_power true ++ send_key_power true.
Proof.
  split; [|split; reflexivity].
  intros st. reflexivity.
Qed.

End PowerBtnLoopClaims.

(* ------------------------------------------------------------------ *)
(** ** Further properties of the backends and their setup *)

Module EarlySuspendFacts.
Import EarlySuspendBackend.

(** The thread's writes until its first failed read alternate MEM, ON. *)
Fixpoint leading_ok (reads : list bool) : nat :=
  match reads with
  | [] => 0
  | b :: rest => if b then S (leading_ok rest) else 0
  end.

Definition alternating (k : nat) : list es_state :=
  map (fun i => if Nat.even i then EARLYSUSPEND_MEM else EARLYSUSPEND_ON) (seq 0 k).

Lemma alternating_SS : forall k,
  alternating (S (S k)) = EARLYSUSPEND_MEM :: EARLYSUSPEND_ON :: alternating k.
Proof.
  intros k. unfold alternating. simpl. f_equal. f_equal.
  rewrite <- (seq_shift k 1), <- (seq_shift k 0), !map_map. reflexivity.
Qed.

Lemma cond_wait_loop_exits : forall target wakeups cur,
  cond_wait_loop target cur wakeups <> None <->
  existsb (fun x => es_state_eqb x target) (cur :: wakeups) = true.
Proof.
  intros target wakeups. induction wakeups as [|s rest IH]; intros cur;
    cbn [cond_wait_loop existsb]; destruct (es_state_eqb cur target);
    cbn [orb]; try (split; intros; congruence).
  pose proof (IH s) as H. cbn [existsb] in H. rewrite <- H.
  destruct (cond_wait_loop target s rest); simpl; split; intros; congruence.
Qed.

Lemma cond_wait_result : forall target cur wakeups,
  match cond_wait_loop target cur wakeups with
  | Some _ => Some 0%Z | None => None end =
  if existsb (fun x => es_state_eqb x target) (cur :: wakeups) then Some 0%Z else None.
Proof.
  intros target cur wakeups.
  pose proof (cond_wait_loop_exits target wakeups cur) as H.
  destruct (cond_wait_loop target cur wakeups), (existsb _ _); auto.
  - exfalso. assert (Some n <> None) by discriminate. apply H in H0. discriminate.
  - exfalso. destruct H as [_ H]. apply H; auto.
Qed.

End EarlySuspendFacts.

Module SetupFacts.
Import WakeupCountSetup.

Definition pb_action_eqb (a b : pb_action) : bool :=
  match a, b with
  | PBOpenUinput, PBOpenUinput | PBWriteUserDev, PBWriteUserDev
  | PBSetEvBitKey, PBSetEvBitKey | PBSetKeyBitPower, PBSetKeyBitPower
  | PBSetKeyBitWakeup, PBSetKeyBitWakeup | PBDevCreate, PBDevCreate
  | PBThreadCreate, PBThreadCreate => true
  | _, _ => false
  end.

Definition count_act (a : pb_action) (l : list pb_action) : nat :=
  List.length (filter (pb_action_eqb a) l).

Lemma run_init_opened : forall opens fd,
  (fd >= 0)%Z -> run_init_power_button opens fd = [].
Proof.
  induction opens as [|o rest IH]; intros fd Hfd; [reflexivity|].
  simpl. unfold init_android_power_button.
  replace (fd >=? 0)%Z with true by (symmetry; apply Z.geb_le; lia).
  apply IH. assumption.
Qed.

Lemma run_init_counts : forall a opens fd,
  (fd < 0)%Z ->
  (a = PBDevCreate \/ a = PBThreadCreate) ->
  count_act a (run_init_power_button opens fd) =
  if existsb (fun o => (0 <=? o)%Z) opens then 1 else 0.
Proof.
  intros a opens fd Hfd Ha. unfold count_act.
  revert fd Hfd. induction opens as [|o rest IH]; intros fd Hfd; [reflexivity|].
  cbn [run_init_power_button existsb]. unfold init_android_power_button.
  replace (fd >=? 0)%Z with false by (symmetry; rewrite Z.geb_leb; apply Z.leb_gt; lia).
  destruct (o <? 0)%Z eqn:Eo.
  - apply Z.ltb_lt in Eo.
    replace (0 <=? o)%Z with false by (symmetry; apply Z.leb_gt; lia).
    rewrite filter_app, length_app, (IH o Eo).
    destruct Ha; subst a; reflexivity.
  - apply Z.ltb_ge in Eo.
    replace (0 <=? o)%Z with true by (symmetry; apply Z.leb_le; lia).
    rewrite filter_app, length_app, run_init_opened by lia.
    destruct Ha; subst a; reflexivity.
Qed.

End SetupFacts.

Module BackendExtras.
Import EarlySuspendBackend EarlySuspendFacts WakeupCountSetup SetupFacts.

(** The earlysuspend thread assigns MEM, ON, MEM, ON, ... to
    [earlysuspend_state], one assignment per successful blocking read,
    and stops at the first failed read. *)
Theorem earlysuspend_thread_alternates : forall reads,
  earlysuspend_thread_func reads = alternating (leading_ok reads).
Proof.
  fix IH 1. intros [|b [|b' rest]].
  - reflexivity.
  - destruct b; reflexivity.
  - destruct b; [|reflexivity]. destruct b'; [|reflexivity].
    cbn [earlysuspend_thread_func leading_ok negb].
    rewrite alternating_SS, IH. reflexivity.
Qed.

(** [autosuspend_earlysuspend_enable] writes the sleep state once; a
    failed write is returned as is, without waiting; otherwise it returns
    0 at once when not waiting, and when waiting, returns 0 as soon as
    MEM is observed and stays blocked until then. *)
Theorem earlysuspend_enable_result : forall sleep_state r wait cur wakeups,
  autosuspend_earlysuspend_enable sleep_state r wait cur wakeups =
  ([sleep_state],
   if (r <? 0)%Z then Some r
   else if wait then
     if existsb (fun x => es_state_eqb x EARLYSUSPEND_MEM) (cur :: wakeups)
     then Some 0%Z else None
   else Some 0%Z).
Proof.
  intros ss r wait cur wakeups. unfold autosuspend_earlysuspend_enable.
  destruct (r <? 0)%Z; [reflexivity|].
  destruct wait; [|reflexivity]. rewrite cond_wait_result. reflexivity.
Qed.

(** [autosuspend_earlysuspend_disable] writes "on" and never reports an
    error: whatever the write returns, it returns 0 (at once when not
    waiting, or once ON is observed when waiting). *)
Theorem earlysuspend_disable_ignores_write_error : forall r wait cur wakeups,
  autosuspend_earlysuspend_disable r wait cur wakeups =
  (["on"%string],
   if wait then
     if existsb (fun x => es_state_eqb x EARLYSUSPEND_ON) (cur :: wakeups)
     then Some 0%Z else None
   else Some 0%Z).
Proof.
  intros r wait cur wakeups. unfold autosuspend_earlysuspend_disable.
  destruct wait; [|reflexivity]. rewrite cond_wait_result. reflexivity.
Qed.


(** However often [init_android_power_button] runs (it runs at every
    [autosuspend_wakeup_count_init], so again after a failed controller
    initialization), the uinput device is created and the power-button
    thread started at most once: exactly once if some [open] of
    [/dev/uinput] succeeded, never otherwise; a failed open leaves the
    descriptor negative, so the next call tries again. *)
Theorem power_button_setup_at_most_once : forall opens,
  count_act PBDevCreate (run_init_power_button opens (-1)%Z) =
    (if existsb (fun o => (0 <=? o)%Z) opens then 1 else 0) /\
  count_act PBThreadCreate (run_init_power_button opens (-1)%Z) =
    (if existsb (fun o => (0 <=? o)%Z) opens then 1 else 0).
Proof.
  intros opens. split; apply run_init_counts; auto; lia.
Qed.

End BackendExtras.

Module LoopExtras.
Import Input SuspendLoop.

Definition armed (rd : option string) : Prop :=
  exists tok, rd = Some tok /\ tok <> EmptyString.

(** In one cycle of [suspend_thread_func]: the sleep state is written iff
    the counter read gave a non-empty token, [sem_wait] succeeded and the
    commit was accepted; the semaphore is posted iff a non-empty token
    was read and [sem_wait] succeeded, and then as the cycle's last
    action, so every permit the loop takes is given back in the same
    cycle; the wakeup key pair is sent iff, in addition, the sleep-state
    write succeeded. *)
Theorem suspend_cycle_gates : forall rd w c s ss f,
  let effs := suspend_cycle rd w c s ss f in
  (forall st, In (EWriteState st) effs <->
     armed rd /\ w = true /\ c = true /\ st = ss) /\
  (In ESemPost effs <-> armed rd /\ w = true) /\
  (In ESemPost effs -> last effs EUsleep = ESemPost) /\
  ((exists a, In (EUinput a) effs) <->
     armed rd /\ w = true /\ c = true /\ s = true).
Proof.
  intros rd w c s ss f effs. subst effs. unfold armed.
  destruct rd as [[|ch t]|]; [| destruct w, c, s, f |]; simpl.
  all: repeat split; intros;
    repeat match goal with
           | H : _ /\ _ |- _ => destruct H
           | H : exists _, _ |- _ => destruct H
           | H : _ \/ _ |- _ => destruct H
           | H : False |- _ => contradiction
           | H : EWriteState _ = EWriteState _ |- _ => injection H as H; subst
           | H : Some _ = Some _ |- _ => injection H as H; subst
           end; try discriminate; try congruence; auto;
    try (eexists; split; [reflexivity | discriminate]);
    try (repeat (first [left; reflexivity | right]); fail);
    try (eexists; repeat (first [left; reflexivity | right]); fail).
Qed.

End LoopExtras.

Module ControllerLockoutFacts.
Import Controller ControllerFacts ControllerLockout.

(** 1 when autosuspend is on with the wakeup-count backend selected. *)
Definition wc_enabled (st : ctrl) : nat :=
  if autosuspend_enabled st
     && match autosuspend_ops st with Some WakeupCount => true | _ => false end
  then 1 else 0.

Lemma init_wc_enabled : forall env st ret st1,
  ctrl_wf st -> autosuspend_init env st = (ret, st1) ->
  wc_enabled st1 = wc_enabled st.
Proof.
  intros env st ret st1 Hw E.
  destruct (autosuspend_inited st) eqn:Ei.
  - rewrite init_inited in E by assumption. injection E as _ E. subst st1. reflexivity.
  - destruct (init_wf env st Hw) as [(st2 & E2 & _ & _ & _ & He)|(E2 & Hs)].
    + rewrite E2 in E. injection E as _ E. subst st2.
      destruct Hw as [_ H2]. rewrite (H2 Ei) in He |- *.
      unfold wc_enabled. simpl in *. rewrite He. reflexivity.
    + rewrite E2 in E. injection E as _ E. subst st1. rewrite Hs. reflexivity.
Qed.

Lemma wc_posts_nil : forall r, wc_posts [] r = 0.
Proof. intros r. unfold wc_posts. destruct (r =? 0)%Z; reflexivity. Qed.

Lemma wc_waits_nil : forall r, wc_waits [] r = 0.
Proof. intros r. unfold wc_waits. destruct (r =? 0)%Z; reflexivity. Qed.

Definition cs_inv (s : csys) : Prop :=
  reachable (cs_ctrl s) /\
  cs_posted s = cs_consumed s + wc_enabled (cs_ctrl s).

Lemma run_op_inv : forall s o, cs_inv s -> cs_inv (run_op s o).
Proof.
  intros [c p q] [env r|env r] [Hr Heq]; simpl in *.
  - destruct (autosuspend_enable env r c) as [[ret c'] calls] eqn:E. split; simpl.
    + replace c' with (snd (fst (autosuspend_enable env r c))) by (rewrite E; reflexivity).
      constructor; assumption.
    + unfold autosuspend_enable in E.
      destruct (autosuspend_init env c) as [ret0 c1] eqn:Ei.
      pose proof (init_wc_enabled env c ret0 c1 (reachable_wf c Hr) Ei) as Hc1.
      destruct (negb (ret0 =? 0)%Z).
      { injection E as _ <- <-. rewrite wc_posts_nil. lia. }
      destruct (autosuspend_enabled c1) eqn:Ee.
      { injection E as _ <- <-. rewrite wc_posts_nil. lia. }
      destruct (autosuspend_ops c1) as [b|] eqn:Eo.
      2:{ injection E as _ <- <-. rewrite wc_posts_nil. lia. }
      destruct (negb (r =? 0)%Z) eqn:Er.
      * injection E as _ <- <-. unfold wc_posts.
        destruct (r =? 0)%Z; [discriminate|]. lia.
      * injection E as _ <- <-. unfold wc_posts.
        destruct (r =? 0)%Z; [|discriminate].
        assert (H0 : wc_enabled c = 0)
          by (rewrite <- Hc1; unfold wc_enabled; rewrite Ee; reflexivity).
        unfold wc_enabled; simpl; rewrite Eo. destruct b; simpl; lia.
  - destruct (autosuspend_disable env r c) as [[ret c'] calls] eqn:E. split; simpl.
    + replace c' with (snd (fst (autosuspend_disable env r c))) by (rewrite E; reflexivity).
      constructor; assumption.
    + unfold autosuspend_disable in E.
      destruct (autosuspend_init env c) as [ret0 c1] eqn:Ei.
      pose proof (init_wc_enabled env c ret0 c1 (reachable_wf c Hr) Ei) as Hc1.
      destruct (negb (ret0 =? 0)%Z).
      { injection E as _ <- <-. rewrite wc_waits_nil. lia. }
      destruct (autosuspend_enabled c1) eqn:Ee; simpl in E.
      2:{ injection E as _ <- <-. rewrite wc_waits_nil. lia. }
      destruct (autosuspend_ops c1) as [b|] eqn:Eo.
      2:{ injection E as _ <- <-. rewrite wc_waits_nil. lia. }
      destruct (negb (r =? 0)%Z) eqn:Er.
      * injection E as _ <- <-. unfold wc_waits.
        destruct (r =? 0)%Z; [discriminate|]. lia.
      * injection E as _ <- <-. unfold wc_waits.
        destruct (r =? 0)%Z; [|discriminate].
        assert (H0 : wc_enabled c = match b with WakeupCount => 1 | _ => 0 end)
          by (rewrite <- Hc1; unfold wc_enabled; rewrite Ee, Eo; destruct b; reflexivity).
        unfold wc_enabled; simpl; try rewrite Eo. destruct b; simpl in *; lia.
Qed.

Lemma run_ops_inv : forall os s, cs_inv s -> cs_inv (run_ops os s).
Proof.
  induction os as [|o os IH]; intros s H; simpl; [exact H|].
  apply IH, run_op_inv, H.
Qed.

(** Driven only through [autosuspend_enable] and [autosuspend_disable],
    the wakeup-count backend's permits balance: after any sequence of
    calls from process start (backend calls succeeding or failing), the
    permits posted exceed those consumed by exactly one while autosuspend
    is on with the wakeup-count backend, and by none otherwise. *)
Theorem controller_permits_balanced : forall os,
  let s := run_ops os init_csys in
  cs_posted s = cs_consumed s + wc_enabled (cs_ctrl s).
Proof.
  intros os s. apply run_ops_inv. split; [constructor|reflexivity].
Qed.

End ControllerLockoutFacts.

Module SleepStateExtras.
Import SleepState.

(** Whatever [buf] held before and whatever follows it in memory, the
    probe finds a state the kernel lists within the first 64 bytes of
    [/sys/power/state] when the read succeeds; it answers false when the
    file cannot be opened. *)
Theorem sleep_state_found_when_listed : forall nd state,
  node_read_ok nd = true -> listed nd state ->
  sleep_state_available (Some nd) state = true /\
  sleep_state_available None state = false.
Proof.
  intros nd state Hr Hl. split; [|reflexivity].
  exact (SleepStateFacts.listed_found nd state Hr Hl).
Qed.

Lemma sleep_state_found_when_listed_witness :
  let nd := mk_node "freeze mem" true "garbage" "more" in
  node_read_ok nd = true /\ listed nd "freeze"%string /\
  sleep_state_available (Some nd) "freeze"%string = true.
Proof.
  split; [reflexivity|]. split; [split; vm_compute; reflexivity|].
  apply (proj1 (sleep_state_found_when_listed
                  (mk_node "freeze mem" true "garbage" "more") "freeze"
                  eq_refl ltac:(split; vm_compute; reflexivity))).
Defined.

End SleepStateExtras.

Module PowerBtnCounts.
Import Input PowerBtn.

Definition is_press (a : uaction) : bool :=
  match a with
  | UWrite e => (iev_type e =? EV_KEY)%Z && (iev_code e =? KEY_POWER)%Z
                && (iev_value e =? 1)%Z
  | USleep _ => false
  end.

(** Synthetic power-key presses written to the uinput device. *)
Definition presses (l : list uaction) : nat := List.length (filter is_press l).

Definition is_release_read (r : option input_event) : bool :=
  match r with
  | Some e => (iev_type e =? EV_KEY)%Z && (iev_code e =? KEY_POWER)%Z
              && (iev_value e =? 0)%Z
  | None => false
  end.

(** Power-key releases read and poll timeouts, up to the first poll error. *)
Fixpoint press_budget (polls : list poll_result) : nat :=
  match polls with
  | [] => 0
  | PError :: _ => 0
  | PTimeout :: rest => S (press_budget rest)
  | PReady reads :: rest =>
      List.length (filter is_release_read reads) + press_budget rest
  end.

Lemma presses_app : forall a b, presses (a ++ b) = presses a + presses b.
Proof. intros a b. unfold presses. rewrite filter_app, length_app. reflexivity. Qed.

Lemma presses_send_key_power : forall lp, presses (send_key_power lp) = 1.
Proof. intros []; reflexivity. Qed.

Lemma handle_event_presses : forall dc st iev,
  presses (snd (handle_event dc st iev)) =
  if is_release_read (Some iev) && (negb dc || (timeout st >? 0)%Z) then 1 else 0.
Proof.
  intros dc st iev. unfold handle_event, is_release_read.
  destruct ((iev_type iev =? EV_KEY)%Z && (iev_code iev =? KEY_POWER)%Z
            && (iev_value iev =? 0)%Z).
  - destruct (negb dc || (timeout st >? 0)%Z); simpl;
      [apply presses_send_key_power|reflexivity].
  - destruct (_ && _ && _); reflexivity.
Qed.

Lemma handle_reads_presses : forall dc reads st,
  presses (snd (handle_reads dc st reads)) <=
    List.length (filter is_release_read reads) /\
  (dc = false -> presses (snd (handle_reads dc st reads)) =
    List.length (filter is_release_read reads)).
Proof.
  intros dc. induction reads as [|[iev|] rest IH]; intros st;
    cbn [handle_reads filter].
  - unfold presses; simpl; split; [lia|reflexivity].
  - pose proof (handle_event_presses dc st iev) as Hp.
    destruct (handle_event dc st iev) as [st1 o1] eqn:E1.
    destruct (handle_reads dc st1 rest) as [st2 o2] eqn:E2.
    cbn [snd] in Hp |- *. specialize (IH st1). rewrite E2 in IH.
    cbn [snd] in IH. destruct IH as [IH1 IH2].
    rewrite presses_app, Hp.
    destruct (is_release_read (Some iev));
      [destruct (negb dc || (timeout st >? 0)%Z) eqn:Ed|]; cbn [andb Datatypes.length].
    + split; [lia|intros Hd; rewrite (IH2 Hd); reflexivity].
    + split; [lia|intros Hd; subst dc; discriminate].
    + split; [lia|intros Hd; rewrite (IH2 Hd); reflexivity].
  - apply IH.
Qed.

Lemma power_loop_presses : forall dc c polls st,
  presses (power_loop dc (S c) polls st) <= press_budget polls /\
  (dc = false -> presses (power_loop dc (S c) polls st) = press_budget polls).
Proof.
  intros dc c. induction polls as [|[| |reads] rest IH]; intros st;
    cbn [power_loop press_budget].
  - split; [unfold presses; simpl; lia|reflexivity].
  - split; [unfold presses; simpl; lia|reflexivity].
  - rewrite presses_app, presses_send_key_power.
    destruct (IH (mk_pstate (-1)%Z true)) as [H1 H2].
    split; [lia|intros Hd; rewrite (H2 Hd); reflexivity].
  - pose proof (handle_reads_presses dc reads st) as [H1 H2].
    destruct (handle_reads dc st reads) as [st' out] eqn:E.
    simpl in H1, H2. rewrite presses_app.
    destruct (IH st') as [H3 H4].
    split; [lia|intros Hd; rewrite (H2 Hd), (H4 Hd); reflexivity].
Qed.

(** What a [read] of one ready descriptor does: a full event, a short
    read, or a failure (-1), after which [iev] holds stale bytes. *)
Inductive read_result :=
| RFull (ev : input_event)
| RShort
| RFail (stale : input_event).

(** What the loop body sees: [res < sizeof(iev)] with [size_t res] skips
    only the short read. *)
Definition seen (r : read_result) : option input_event :=
  match r with
  | RFull ev => Some ev
  | RShort => None
  | RFail stale => Some stale
  end.

Inductive poll_outcome :=
| QError
| QTimeout
| QReady (rs : list read_result).

Definition to_poll (q : poll_outcome) : poll_result :=
  match q with
  | QError => PError
  | QTimeout => PTimeout
  | QReady rs => PReady (map seen rs)
  end.

Definition powerbtnd_run (dc : bool) (dir : option (list dirent))
  (qs : list poll_outcome) : list uaction :=
  powerbtnd_thread_func dc dir (map to_poll qs).

Definition counts_press (r : read_result) : bool :=
  match r with
  | RFull ev => is_release_read (Some ev)
  | RShort => false
  | RFail _ => true
  end.

(** Timeouts, power-key releases read in full and failed reads, up to the
    first [poll] error. *)
Fixpoint press_sources (qs : list poll_outcome) : nat :=
  match qs with
  | [] => 0
  | QError :: _ => 0
  | QTimeout :: rest => S (press_sources rest)
  | QReady rs :: rest => List.length (filter counts_press rs) + press_sources rest
  end.

Lemma release_reads_le : forall rs,
  List.length (filter is_release_read (map seen rs)) <= List.length (filter counts_press rs).
Proof.
  induction rs as [|[ev| |st] rs IH]; cbn [map seen filter counts_press].
  - cbn. lia.
  - destruct (is_release_read (Some ev)); cbn [Datatypes.length]; lia.
  - cbn [is_release_read]. lia.
  - destruct (is_release_read (Some st)); cbn [Datatypes.length]; lia.
Qed.

Lemma press_budget_le : forall qs, press_budget (map to_poll qs) <= press_sources qs.
Proof.
  induction qs as [|[| |rs] qs IH]; cbn [map to_poll press_budget press_sources]; try lia.
  pose proof (release_reads_le rs). lia.
Qed.

(** Each synthetic power-key press the monitor writes answers a poll
    timeout, a power-key release read in full, or a failed [read] (whose
    stale [iev] the body processes), counted up to the first [poll]
    error.  With double-click off and a power button found, it writes
    exactly one press per timeout and per processed event that is a
    power-key release, stale ones included; with none found, none. *)
Theorem powerbtnd_presses : forall dc dir qs,
  presses (powerbtnd_run dc dir qs) <= press_sources qs /\
  presses (powerbtnd_run false dir qs) =
    (if (List.length (fst (openfds dir)) =? 0)%nat then 0
     else press_budget (map to_poll qs)).
Proof.
  intros dc dir qs. unfold powerbtnd_run, powerbtnd_thread_func.
  pose proof (press_budget_le qs) as Hle.
  destruct (List.length (fst (openfds dir))) as [|c]; simpl.
  - assert (H0 : forall d p st, power_loop d 0 p st = []) by (intros d [|[] ?] st; reflexivity).
    rewrite !H0. unfold presses. simpl. split; [lia|reflexivity].
  - split.
    + pose proof (proj1 (power_loop_presses dc c (map to_poll qs) init_pstate)). lia.
    + apply power_loop_presses; reflexivity.
Qed.

End PowerBtnCounts.

Module ScanDescriptors.
Import Input PowerBtn.

Definition opens (l : list fdaction) : nat :=
  List.length (filter (fun a => match a with FOpen _ => true | _ => false end) l).

Definition closes (l : list fdaction) : nat :=
  List.length (filter (fun a => match a with FClose _ => true | _ => false end) l).

Lemma openfds_loop_descriptors : forall des cnt,
  List.length (fst (openfds_loop cnt des)) <= MAX_POWERBTNS - cnt /\
  opens (snd (openfds_loop cnt des)) =
    closes (snd (openfds_loop cnt des)) + List.length (fst (openfds_loop cnt des)).
Proof.
  induction des as [|de rest IH]; intros cnt; cbn [openfds_loop];
    destruct (cnt <? MAX_POWERBTNS)%nat eqn:Elt;
    try (simpl; unfold opens, closes; simpl; lia).
  apply Nat.ltb_lt in Elt.
  destruct (negb (is_event_node (d_name de))); [apply IH|].
  destruct (negb (open_ok de)).
  { destruct (openfds_loop cnt rest) as [k a] eqn:E.
    specialize (IH cnt). rewrite E in IH. cbn [fst snd] in *.
    unfold opens, closes, MAX_POWERBTNS in *. cbn [filter Datatypes.length] in *. lia. }
  destruct (negb (String.eqb (reported_name de) "Power Button")).
  { destruct (openfds_loop cnt rest) as [k a] eqn:E.
    specialize (IH cnt). rewrite E in IH. cbn [fst snd] in *.
    unfold opens, closes, MAX_POWERBTNS in *. cbn [filter Datatypes.length] in *. lia. }
  destruct (openfds_loop (S cnt) rest) as [k a] eqn:E.
  specialize (IH (S cnt)). rewrite E in IH. cbn [fst snd] in *.
  unfold opens, closes, MAX_POWERBTNS in *. cbn [filter Datatypes.length] in *. lia.
Qed.

(** [openfds] keeps at most [MAX_POWERBTNS] descriptors, and leaves open
    exactly the ones it keeps: every other device it opens (one that is
    not a power button) is closed again. *)
Theorem openfds_no_leak : forall dir,
  List.length (fst (openfds dir)) <= MAX_POWERBTNS /\
  opens (snd (openfds dir)) = closes (snd (openfds dir)) + List.length (fst (openfds dir)).
Proof.
  intros [des|]; simpl.
  - pose proof (openfds_loop_descriptors des 0) as [H1 H2].
    split; [lia|exact H2].
  - unfold MAX_POWERBTNS, opens, closes. simpl. lia.
Qed.

End ScanDescriptors.

Module ControllerLatch.
Import Controller ControllerLockout.

Lemma run_op_latched : forall s o,
  autosuspend_inited (cs_ctrl s) = true ->
  autosuspend_inited (cs_ctrl (run_op s o)) = true /\
  autosuspend_ops (cs_ctrl (run_op s o)) = autosuspend_ops (cs_ctrl s).
Proof.
  intros [c p q] [env r|env r] Hi; simpl in *;
    [unfold autosuspend_enable|unfold autosuspend_disable];
    rewrite ControllerFacts.init_inited by exact Hi; simpl;
    destruct (autosuspend_enabled c); destruct (autosuspend_ops c) eqn:Eo;
    try destruct (negb (r =? 0)%Z); simpl; auto.
Qed.

(** Once initialisation has succeeded, the backend is fixed: no later
    [autosuspend_enable] or [autosuspend_disable], whatever the system
    then looks like (property, sysfs nodes, thread creation), probes
    again or switches to another backend. *)
Theorem backend_latched : forall os s,
  autosuspend_inited (cs_ctrl s) = true ->
  autosuspend_inited (cs_ctrl (run_ops os s)) = true /\
  autosuspend_ops (cs_ctrl (run_ops os s)) = autosuspend_ops (cs_ctrl s).
Proof.
  induction os as [|o os IH]; intros s Hi; simpl; [auto|].
  destruct (run_op_latched s o Hi) as [H1 H2].
  destruct (IH (run_op s o) H1) as [H3 H4]. split; congruence.
Qed.

Lemma backend_latched_witness :
  let wc_env := mk_init_env "0" false false false false true true true true in
  let es_env := mk_init_env "1" true true true true false false false false in
  let s := run_ops [OpEnable wc_env 0%Z] init_csys in
  autosuspend_inited (cs_ctrl s) = true /\
  autosuspend_inited (cs_ctrl (run_ops [OpDisable es_env 0%Z; OpEnable es_env 0%Z] s)) = true /\
  autosuspend_ops (cs_ctrl (run_ops [OpDisable es_env 0%Z; OpEnable es_env 0%Z] s)) =
    autosuspend_ops (cs_ctrl s).
Proof.
  split; [vm_compute; reflexivity|].
  apply (backend_latched [OpDisable (mk_init_env "1" true true true true false false false false) 0%Z;
                          OpEnable (mk_init_env "1" true true true true false false false false) 0%Z]
           (run_ops [OpEnable (mk_init_env "0" false false false false true true true true) 0%Z]
              init_csys)).
  vm_compute. reflexivity.
Defined.

End ControllerLatch.

Module LockoutExtras.
Import Lockout.

(** Whatever the interleaving of [enable], [disable] and the suspend
    loop, permits are never created out of thin air: the semaphore's
    count, plus the permit the suspend thread holds, plus those [disable]
    took back, never exceed the permits [enable] posted. *)
Theorem lockout_permits_conserved : forall s,
  reachable s -> sem s + held (phase s) + consumed s <= posted s.
Proof. intros s Hr. exact (LockoutFacts.reachable_inv s Hr). Qed.

Lemma lockout_permits_conserved_witness :
  let s := mk_sys 0 1 0 (PHeld "7"%string) in
  reachable s /\ sem s + held (phase s) + consumed s <= posted s.
Proof.
  assert (Hr : reachable (mk_sys 0 1 0 (PHeld "7"%string))).
  { exists [LEnable; LRead "7"%string; LWait].
    eapply steps_cons; [apply step_enable|]. simpl.
    eapply steps_cons; [apply step_read; [reflexivity|discriminate]|]. simpl.
    eapply steps_cons; [apply step_wait; reflexivity|]. simpl.
    apply steps_nil. }
  split; [exact Hr|].
  apply (lockout_permits_conserved (mk_sys 0 1 0 (PHeld "7"%string))). exact Hr.
Defined.

End LockoutExtras.
